(** * JWT claim sets and the JWT-MAC pipeline

    A shallow embedding of
    - [cc/jwt/raw_jwt.cc]: the claim set [RawJwt] and its builder
      [RawJwtBuilder], both thin layers over a [google::protobuf::Struct];
    - [cc/jwt/internal/jwt_mac_impl.cc]: [JwtMacImpl::ComputeMacAndEncode]
      and [JwtMacImpl::VerifyMacAndDecode].

    Strings are byte strings ([string]), the protobuf map of a [Struct] is a
    finite map ([gmap string Value]), [util::Status] is a record of an error
    code and a message, and [util::StatusOr<T>] is a sum.  The builder is
    mutated in place in C++; here every mutating method takes the builder
    and returns the new one. *)

From Stdlib Require Import ZArith String Ascii List Lia.
From Stdlib Require Import SpecFloat.
From stdpp Require Import base option gmap strings list.

#[local] Set Warnings "-register-all".
#[local] Open Scope string_scope.
#[local] Open Scope Z_scope.

(** ** util::Status and util::StatusOr *)

(** The canonical codes of [util::error::Code]. *)
Inductive Code : Type :=
  | OK | CANCELLED | UNKNOWN | INVALID_ARGUMENT | DEADLINE_EXCEEDED
  | NOT_FOUND | ALREADY_EXISTS | PERMISSION_DENIED | RESOURCE_EXHAUSTED
  | FAILED_PRECONDITION | ABORTED | OUT_OF_RANGE | UNIMPLEMENTED
  | INTERNAL | UNAVAILABLE | DATA_LOSS | UNAUTHENTICATED.

Record Status : Type := mkStatus { code : Code; message : string }.

Definition OkStatus : Status := mkStatus OK "".

Definition InvalidArgumentError (msg : string) : Status :=
  mkStatus INVALID_ARGUMENT msg.

(** [Status::ok()]. *)
Definition ok (st : Status) : bool :=
  match code st with OK => true | _ => false end.

Inductive StatusOr (T : Type) : Type :=
  | Ok (v : T)
  | Err (st : Status).

Arguments Ok {T} v.
Arguments Err {T} st.

(** [StatusOr::ok()]. *)
Definition is_ok {T : Type} (r : StatusOr T) : bool :=
  match r with Ok _ => true | Err _ => false end.

(** [StatusOr::status()]: the status of a failed result, OK for a value. *)
Definition status_of {T : Type} (r : StatusOr T) : Status :=
  match r with Ok _ => OkStatus | Err st => st end.

(** ** Numbers and times *)

(** A C++ [double]: IEEE-754 binary64, precision 53 and [emax] 1024. *)
Abbreviation double := spec_float (only parsing).

(** The conversion of an integer to [double] (round to nearest even;
    exact below 2^53 in magnitude). *)
Definition int_to_double (z : Z) : double := binary_normalize 53 1024 z 0 false.

(** The conversion of a [double] to [int64_t]: truncation toward zero.
    C++ leaves it undefined for NaN, the infinities and values outside the
    range of [int64_t]; those give [None]. *)
Definition double_to_int64 (d : double) : option Z :=
  match d with
  | S754_zero _ => Some 0
  | S754_finite s m e =>
      let a := if 0 <=? e then Z.pos m * 2 ^ e else Z.pos m / 2 ^ (- e) in
      let z := if s then - a else a in
      if (- 2 ^ 63 <=? z) && (z <? 2 ^ 63) then Some z else None
  | S754_infinity _ | S754_nan => None
  end.

(** [static_cast<int>] of an [int64_t]: reduction modulo 2^32 into the range
    of a 32-bit two's complement [int] (the rule of C++20, and what the
    compilers did before it, when the result was implementation-defined). *)
Definition static_cast_int (z : Z) : Z := (z + 2 ^ 31) mod 2 ^ 32 - 2 ^ 31.

(** [absl::Time] is a duration since the Unix epoch kept as whole seconds
    ([rep_hi], an [int64_t]) and a non-negative count of quarter nanoseconds
    ([rep_lo], below 4 * 10^9). *)
Record Time : Type := mkTime { rep_hi : Z; rep_lo : Z }.

Definition ticks_per_second : Z := 4000000000.

Definition Time_wf (t : Time) : Prop :=
  - 2 ^ 63 <= rep_hi t < 2 ^ 63 /\ 0 <= rep_lo t < ticks_per_second.

(** [absl::ToUnixSeconds]: the seconds of the representation, which rounds
    toward negative infinity. *)
Definition ToUnixSeconds (t : Time) : Z := rep_hi t.

(** [absl::FromUnixSeconds]. *)
Definition FromUnixSeconds (s : Z) : Time := mkTime s 0.

(** The time [t] as a count of quarter nanoseconds, and the largest whole
    number of seconds not above [t]: what the specification calls
    [floor(t)] seconds. *)
Definition Time_ticks (t : Time) : Z := rep_hi t * ticks_per_second + rep_lo t.

Definition floor_seconds (t : Time) : Z := Time_ticks t / ticks_per_second.

(** ** google::protobuf::Value and google::protobuf::Struct *)

(** The [kind] oneof of [google::protobuf::Value]; a default-constructed
    [Value] has no kind set. *)
Inductive Value : Type :=
  | KIND_NOT_SET
  | NullValue
  | NumberValue (number_value : double)
  | StringValue (string_value : string)
  | BoolValue (bool_value : bool)
  | StructValue (struct_value : gmap string Value)
  | ListValue (list_value : list Value).

(** [google::protobuf::Struct]: its only field is the map [fields]. *)
Abbreviation Struct := (gmap string Value) (only parsing).

(** [Value::KindCase]. *)
Inductive KindCase : Type :=
  | kKindNotSet | kNullValue | kNumberValue | kStringValue | kBoolValue
  | kStructValue | kListValue.

Definition kind_case (v : Value) : KindCase :=
  match v with
  | KIND_NOT_SET => kKindNotSet
  | NullValue => kNullValue
  | NumberValue _ => kNumberValue
  | StringValue _ => kStringValue
  | BoolValue _ => kBoolValue
  | StructValue _ => kStructValue
  | ListValue _ => kListValue
  end.

Definition KindCase_eqb (a b : KindCase) : bool :=
  match a, b with
  | kKindNotSet, kKindNotSet | kNullValue, kNullValue
  | kNumberValue, kNumberValue | kStringValue, kStringValue
  | kBoolValue, kBoolValue | kStructValue, kStructValue
  | kListValue, kListValue => true
  | _, _ => false
  end.

(** ** The helpers of [tink/jwt/internal/json_util.h] *)

(** The JSON codec between text and protobuf values, which wraps protobuf's
    own JSON utilities; the claim set uses it through this interface. *)
Class JsonUtil : Type := {
  JsonStringToProtoStruct : string -> StatusOr Struct;
  JsonStringToProtoList : string -> StatusOr (list Value);
  ProtoStructToJsonString : Struct -> StatusOr string;
  ProtoListToJsonString : list Value -> StatusOr string
}.

(** ** The claim names of [tink/jwt/jwt_names.h] *)

(** Modelled from the spec: [jwt_names.h] is not among the sources; the
    seven registered names are [iss], [sub], [aud], [exp], [nbf], [iat]
    and [jti]. *)
Definition kJwtClaimIssuer : string := "iss".
Definition kJwtClaimSubject : string := "sub".
Definition kJwtClaimAudience : string := "aud".
Definition kJwtClaimExpiration : string := "exp".
Definition kJwtClaimNotBefore : string := "nbf".
Definition kJwtClaimIssuedAt : string := "iat".
Definition kJwtClaimJwtId : string := "jti".

(** The registered claim names as a list. *)
Definition registered_claim_names : list string :=
  [kJwtClaimIssuer; kJwtClaimSubject; kJwtClaimAudience; kJwtClaimExpiration;
   kJwtClaimNotBefore; kJwtClaimIssuedAt; kJwtClaimJwtId].

(** ** raw_jwt.cc: helpers of the anonymous namespace *)

Definition IsRegisteredClaimName (name : string) : bool :=
  String.eqb name kJwtClaimIssuer || String.eqb name kJwtClaimSubject ||
  String.eqb name kJwtClaimAudience || String.eqb name kJwtClaimExpiration ||
  String.eqb name kJwtClaimNotBefore || String.eqb name kJwtClaimIssuedAt ||
  String.eqb name kJwtClaimJwtId.

Definition ValidatePayloadName (name : string) : Status :=
  if IsRegisteredClaimName name then
    InvalidArgumentError
      ("claim '" +:+ name +:+
       "' is invalid because it's a registered name; " +:+
       "use the corresponding getter or setter method.")
  else OkStatus.

Definition hasClaimOfKind (json_proto : Struct) (name : string)
    (kind : KindCase) : bool :=
  if IsRegisteredClaimName name then false
  else
    match json_proto !! name with
    | None => false
    | Some value => KindCase_eqb (kind_case value) kind
    end.

(** ** raw_jwt.cc: class RawJwt *)

Record RawJwt : Type := mkRawJwt { json_proto_ : Struct }.

(** The default constructor [RawJwt::RawJwt()]. *)
Definition RawJwt_default : RawJwt := mkRawJwt ∅.

(** [fields().contains(name)]. *)
Definition contains (fields : Struct) (name : string) : bool :=
  match fields !! name with Some _ => true | None => false end.

Definition HasIssuer (token : RawJwt) : bool :=
  contains (json_proto_ token) kJwtClaimIssuer.

Definition GetIssuer (token : RawJwt) : StatusOr string :=
  match json_proto_ token !! kJwtClaimIssuer with
  | None => Err (mkStatus INVALID_ARGUMENT "No Issuer found")
  | Some value =>
      match value with
      | StringValue s => Ok s
      | _ => Err (mkStatus INVALID_ARGUMENT "Issuer is not a string")
      end
  end.

Definition HasSubject (token : RawJwt) : bool :=
  contains (json_proto_ token) kJwtClaimSubject.

Definition GetSubject (token : RawJwt) : StatusOr string :=
  match json_proto_ token !! kJwtClaimSubject with
  | None => Err (mkStatus INVALID_ARGUMENT "No Subject found")
  | Some value =>
      match value with
      | StringValue s => Ok s
      | _ => Err (mkStatus INVALID_ARGUMENT "Subject is not a string")
      end
  end.

Definition HasAudiences (token : RawJwt) : bool :=
  contains (json_proto_ token) kJwtClaimAudience.

(** The loop of [GetAudiences] over the elements of the list, with the
    vector [audiences] collected so far. *)
Fixpoint GetAudiences_loop (values : list Value) (audiences : list string)
    : StatusOr (list string) :=
  match values with
  | [] => Ok audiences
  | value :: rest =>
      match value with
      | StringValue s => GetAudiences_loop rest (audiences ++ [s])
      | _ => Err (mkStatus INVALID_ARGUMENT
                    "Audiences is not a list of strings")
      end
  end.

Definition GetAudiences (token : RawJwt) : StatusOr (list string) :=
  match json_proto_ token !! kJwtClaimAudience with
  | None => Err (mkStatus NOT_FOUND "No Audiences found")
  | Some list =>
      match list with
      | ListValue values => GetAudiences_loop values []
      | _ => Err (mkStatus INVALID_ARGUMENT "Audiences is not a list")
      end
  end.

Definition HasJwtId (token : RawJwt) : bool :=
  contains (json_proto_ token) kJwtClaimJwtId.

Definition GetJwtId (token : RawJwt) : StatusOr string :=
  match json_proto_ token !! kJwtClaimJwtId with
  | None => Err (mkStatus NOT_FOUND "No JwtId found")
  | Some value =>
      match value with
      | StringValue s => Ok s
      | _ => Err (mkStatus INVALID_ARGUMENT "JwtId is not a string")
      end
  end.

(** The time accessors end in [absl::FromUnixSeconds(sec)] with [sec] a
    [double], which converts [sec] to [int64_t] first; the result is [None]
    where that conversion is undefined. *)
Definition HasExpiration (token : RawJwt) : bool :=
  contains (json_proto_ token) kJwtClaimExpiration.

Definition GetExpiration (token : RawJwt) : StatusOr (option Time) :=
  match json_proto_ token !! kJwtClaimExpiration with
  | None => Err (mkStatus NOT_FOUND "No Expiration found")
  | Some value =>
      match value with
      | NumberValue sec => Ok (FromUnixSeconds <$> double_to_int64 sec)
      | _ => Err (mkStatus INVALID_ARGUMENT "Expiration is not a number")
      end
  end.

Definition HasNotBefore (token : RawJwt) : bool :=
  contains (json_proto_ token) kJwtClaimNotBefore.

Definition GetNotBefore (token : RawJwt) : StatusOr (option Time) :=
  match json_proto_ token !! kJwtClaimNotBefore with
  | None => Err (mkStatus NOT_FOUND "No NotBefore found")
  | Some value =>
      match value with
      | NumberValue sec => Ok (FromUnixSeconds <$> double_to_int64 sec)
      | _ => Err (mkStatus INVALID_ARGUMENT "NotBefore is not a number")
      end
  end.

Definition HasIssuedAt (token : RawJwt) : bool :=
  contains (json_proto_ token) kJwtClaimIssuedAt.

Definition GetIssuedAt (token : RawJwt) : StatusOr (option Time) :=
  match json_proto_ token !! kJwtClaimIssuedAt with
  | None => Err (mkStatus NOT_FOUND "No IssuedAt found")
  | Some value =>
      match value with
      | NumberValue sec => Ok (FromUnixSeconds <$> double_to_int64 sec)
      | _ => Err (mkStatus INVALID_ARGUMENT "IssuedAt is not a number")
      end
  end.

Definition IsNullClaim (token : RawJwt) (name : string) : bool :=
  hasClaimOfKind (json_proto_ token) name kNullValue.

Definition HasBooleanClaim (token : RawJwt) (name : string) : bool :=
  hasClaimOfKind (json_proto_ token) name kBoolValue.

Definition GetBooleanClaim (token : RawJwt) (name : string) : StatusOr bool :=
  let status := ValidatePayloadName name in
  if negb (ok status) then Err status
  else
    match json_proto_ token !! name with
    | None => Err (mkStatus NOT_FOUND ("claim '" +:+ name +:+ "' not found"))
    | Some value =>
        match value with
        | BoolValue b => Ok b
        | _ => Err (mkStatus INVALID_ARGUMENT
                      ("claim '" +:+ name +:+ "' is not a bool"))
        end
    end.

Definition HasStringClaim (token : RawJwt) (name : string) : bool :=
  hasClaimOfKind (json_proto_ token) name kStringValue.

Definition GetStringClaim (token : RawJwt) (name : string)
    : StatusOr string :=
  let status := ValidatePayloadName name in
  if negb (ok status) then Err status
  else
    match json_proto_ token !! name with
    | None => Err (mkStatus NOT_FOUND ("claim '" +:+ name +:+ "' not found"))
    | Some value =>
        match value with
        | StringValue s => Ok s
        | _ => Err (mkStatus INVALID_ARGUMENT
                      ("claim '" +:+ name +:+ "' is not a string"))
        end
    end.

Definition HasNumberClaim (token : RawJwt) (name : string) : bool :=
  hasClaimOfKind (json_proto_ token) name kNumberValue.

Definition GetNumberClaim (token : RawJwt) (name : string)
    : StatusOr double :=
  let status := ValidatePayloadName name in
  if negb (ok status) then Err status
  else
    match json_proto_ token !! name with
    | None => Err (mkStatus NOT_FOUND ("claim '" +:+ name +:+ "' not found"))
    | Some value =>
        match value with
        | NumberValue d => Ok d
        | _ => Err (mkStatus INVALID_ARGUMENT
                      ("claim '" +:+ name +:+ "' is not a number"))
        end
    end.

Definition HasJsonObjectClaim (token : RawJwt) (name : string) : bool :=
  hasClaimOfKind (json_proto_ token) name kStructValue.

Definition HasJsonArrayClaim (token : RawJwt) (name : string) : bool :=
  hasClaimOfKind (json_proto_ token) name kListValue.

(** The names come in the iteration order of the protobuf map, which is
    unspecified; here it is the order of [map_to_list]. *)
Definition CustomClaimNames (token : RawJwt) : list string :=
  filter (fun name => IsRegisteredClaimName name = false)
    ((map_to_list (json_proto_ token)).*1).

Section RawJwtJson.
Context {json_util : JsonUtil}.

Definition FromString (json_string : string) : StatusOr RawJwt :=
  match JsonStringToProtoStruct json_string with
  | Err st => Err st
  | Ok proto => Ok (mkRawJwt proto)
  end.

Definition ToString (token : RawJwt) : StatusOr string :=
  ProtoStructToJsonString (json_proto_ token).

Definition GetJsonObjectClaim (token : RawJwt) (name : string)
    : StatusOr string :=
  let status := ValidatePayloadName name in
  if negb (ok status) then Err status
  else
    match json_proto_ token !! name with
    | None =>
        Err (mkStatus NOT_FOUND ("claim '" +:+ name +:+ "' not found"))
    | Some value =>
        match value with
        | StructValue fields => ProtoStructToJsonString fields
        | _ => Err (mkStatus INVALID_ARGUMENT
                      ("claim '" +:+ name +:+ "' is not a JSON object"))
        end
    end.

Definition GetJsonArrayClaim (token : RawJwt) (name : string)
    : StatusOr string :=
  let status := ValidatePayloadName name in
  if negb (ok status) then Err status
  else
    match json_proto_ token !! name with
    | None =>
        Err (mkStatus NOT_FOUND ("claim '" +:+ name +:+ "' not found"))
    | Some value =>
        match value with
        | ListValue values => ProtoListToJsonString values
        | _ => Err (mkStatus INVALID_ARGUMENT
                      ("claim '" +:+ name +:+ "' is not a JSON array"))
        end
    end.
End RawJwtJson.

(** ** raw_jwt.cc: class RawJwtBuilder *)

Record RawJwtBuilder : Type := mkRawJwtBuilder { builder_json_proto_ : Struct }.

(** The constructor [RawJwtBuilder::RawJwtBuilder()]. *)
Definition RawJwtBuilder_new : RawJwtBuilder := mkRawJwtBuilder ∅.

(** The assignment to [fields[name]], which inserts or overwrites. *)
Definition set_field (name : string) (value : Value) (b : RawJwtBuilder)
    : RawJwtBuilder :=
  mkRawJwtBuilder (<[name := value]> (builder_json_proto_ b)).

Definition SetIssuer (issuer : string) (b : RawJwtBuilder) : RawJwtBuilder :=
  set_field kJwtClaimIssuer (StringValue issuer) b.

Definition SetSubject (subject : string) (b : RawJwtBuilder) : RawJwtBuilder :=
  set_field kJwtClaimSubject (StringValue subject) b.

(** [fields->insert] keeps an entry that is already there;
    [mutable_list_value] on a value of another kind replaces it by the empty
    list. *)
Definition AddAudience (audience : string) (b : RawJwtBuilder)
    : RawJwtBuilder :=
  let fields := builder_json_proto_ b in
  let inserted :=
    match fields !! kJwtClaimAudience with
    | Some v => v
    | None => KIND_NOT_SET
    end in
  let list_value :=
    match inserted with
    | ListValue values => values
    | _ => []
    end in
  mkRawJwtBuilder
    (<[kJwtClaimAudience := ListValue (list_value ++ [StringValue audience])]>
       fields).

Definition SetJwtId (jwid : string) (b : RawJwtBuilder) : RawJwtBuilder :=
  set_field kJwtClaimJwtId (StringValue jwid) b.

Definition SetExpiration (expiration : Time) (b : RawJwtBuilder)
    : RawJwtBuilder :=
  set_field kJwtClaimExpiration
    (NumberValue (int_to_double (static_cast_int (ToUnixSeconds expiration))))
    b.

Definition SetNotBefore (notBefore : Time) (b : RawJwtBuilder)
    : RawJwtBuilder :=
  set_field kJwtClaimNotBefore
    (NumberValue (int_to_double (static_cast_int (ToUnixSeconds notBefore))))
    b.

Definition SetIssuedAt (issuedAt : Time) (b : RawJwtBuilder)
    : RawJwtBuilder :=
  set_field kJwtClaimIssuedAt
    (NumberValue (int_to_double (static_cast_int (ToUnixSeconds issuedAt))))
    b.

(** The adders of custom claims return a [util::Status]; the builder they
    leave behind is the second component. *)
Definition AddNullClaim (name : string) (b : RawJwtBuilder)
    : Status * RawJwtBuilder :=
  let status := ValidatePayloadName name in
  if negb (ok status) then (status, b)
  else (OkStatus, set_field name NullValue b).

Definition AddBooleanClaim (name : string) (bool_value : bool)
    (b : RawJwtBuilder) : Status * RawJwtBuilder :=
  let status := ValidatePayloadName name in
  if negb (ok status) then (status, b)
  else (OkStatus, set_field name (BoolValue bool_value) b).

Definition AddStringClaim (name : string) (string_value : string)
    (b : RawJwtBuilder) : Status * RawJwtBuilder :=
  let status := ValidatePayloadName name in
  if negb (ok status) then (status, b)
  else (OkStatus, set_field name (StringValue string_value) b).

Definition AddNumberClaim (name : string) (double_value : double)
    (b : RawJwtBuilder) : Status * RawJwtBuilder :=
  let status := ValidatePayloadName name in
  if negb (ok status) then (status, b)
  else (OkStatus, set_field name (NumberValue double_value) b).

Section RawJwtBuilderJson.
Context {json_util : JsonUtil}.

Definition AddJsonObjectClaim (name : string) (object_value : string)
    (b : RawJwtBuilder) : Status * RawJwtBuilder :=
  let status := ValidatePayloadName name in
  if negb (ok status) then (status, b)
  else
    match JsonStringToProtoStruct object_value with
    | Err st => (st, b)
    | Ok proto => (OkStatus, set_field name (StructValue proto) b)
    end.

Definition AddJsonArrayClaim (name : string) (array_value : string)
    (b : RawJwtBuilder) : Status * RawJwtBuilder :=
  let status := ValidatePayloadName name in
  if negb (ok status) then (status, b)
  else
    match JsonStringToProtoList array_value with
    | Err st => (st, b)
    | Ok values => (OkStatus, set_field name (ListValue values) b)
    end.
End RawJwtBuilderJson.

Definition Build (b : RawJwtBuilder) : StatusOr RawJwt :=
  let token := mkRawJwt (builder_json_proto_ b) in
  Ok token.

(** ** String operations used by jwt_mac_impl.cc *)

(** The separator of the compact serialization. *)
Definition dot : ascii := "."%char.

(** [string_view::find_last_of(c)]: the position of the last occurrence of
    [c]; [None] stands for [npos]. *)
Fixpoint find_last_of (s : string) (c : ascii) : option nat :=
  match s with
  | EmptyString => None
  | String a r =>
      match find_last_of r c with
      | Some i => Some (S i)
      | None => if Ascii.eqb a c then Some O else None
      end
  end.

Fixpoint string_drop (n : nat) (s : string) : string :=
  match n, s with
  | O, _ => s
  | S n', String _ r => string_drop n' r
  | S _, EmptyString => EmptyString
  end.

Fixpoint string_take (n : nat) (s : string) : string :=
  match n, s with
  | S n', String a r => String a (string_take n' r)
  | _, _ => EmptyString
  end.

(** [string_view::substr(pos, n)], with [None] for the default [npos].  The
    callers below keep [pos] within the string, where C++ defines it. *)
Definition substr (s : string) (pos : nat) (n : option nat) : string :=
  let rest := string_drop pos s in
  match n with
  | None => rest
  | Some k => string_take k rest
  end.

(** [absl::StrSplit(text, d)] with a character delimiter: every piece
    between two delimiters, empty ones included; the empty text gives one
    empty piece. *)
Fixpoint StrSplit (text : string) (d : ascii) : list string :=
  match text with
  | EmptyString => [EmptyString]
  | String a r =>
      if Ascii.eqb a d then EmptyString :: StrSplit r d
      else
        match StrSplit r d with
        | piece :: pieces => String a piece :: pieces
        | [] => [String a EmptyString]
        end
  end.

(** [s] with the byte at position [i] replaced by [c]; [s] itself when [i]
    is past its end. *)
Fixpoint replace_byte (i : nat) (c : ascii) (s : string) : string :=
  match s, i with
  | EmptyString, _ => EmptyString
  | String _ r, O => String c r
  | String a r, S i' => String a (replace_byte i' c r)
  end.

(** The number of occurrences of [c] in [s]. *)
Fixpoint count_char (s : string) (c : ascii) : nat :=
  match s with
  | EmptyString => O
  | String a r => (if Ascii.eqb a c then 1 else 0) + count_char r c
  end.

(** ** The collaborators of JwtMacImpl *)

(** The helpers of [tink/jwt/internal/jwt_format.h].  The decoders return a
    [bool] and write through a pointer in C++; here they return an
    option. *)
Class JwtFormat : Type := {
  CreateHeader : string -> string;
  ValidateHeader : string -> string -> Status;
  EncodePayload : string -> string;
  DecodePayload : string -> option string;
  EncodeSignature : string -> string;
  DecodeSignature : string -> option string
}.

(** The interface [crypto::tink::Mac]: an object is given by its two
    methods. *)
Record Mac : Type := mkMac {
  ComputeMac : string -> StatusOr string;
  VerifyMac : string -> string -> Status
}.

(** [JwtValidator], seen through its method [Validate]. *)
Record JwtValidator : Type := mkJwtValidator {
  Validate : RawJwt -> Status
}.

(** [VerifiedJwt] wraps the claim set that passed verification. *)
Record VerifiedJwt : Type := mkVerifiedJwt { raw_jwt_ : RawJwt }.

(** ** jwt_mac_impl.cc: class JwtMacImpl *)

Record JwtMacImpl : Type := mkJwtMacImpl { mac_ : Mac; algorithm_ : string }.

Section JwtMacImplMethods.
Context {json_util : JsonUtil} {jwt_format : JwtFormat}.

Definition ComputeMacAndEncode (self : JwtMacImpl) (token : RawJwt)
    : StatusOr string :=
  let encoded_header := CreateHeader (algorithm_ self) in
  match ToString token with
  | Err st => Err st
  | Ok payload =>
      let encoded_payload := EncodePayload payload in
      let unsigned_token := encoded_header +:+ "." +:+ encoded_payload in
      match ComputeMac (mac_ self) unsigned_token with
      | Err st => Err st
      | Ok tag =>
          let encoded_tag := EncodeSignature tag in
          Ok (unsigned_token +:+ "." +:+ encoded_tag)
      end
  end.

Definition VerifyMacAndDecode (self : JwtMacImpl) (compact : string)
    (validator : JwtValidator) : StatusOr VerifiedJwt :=
  match find_last_of compact dot with
  | None => Err (mkStatus INVALID_ARGUMENT "invalid token")
  | Some mac_pos =>
      let unsigned_token := substr compact 0 (Some mac_pos) in
      match DecodeSignature (substr compact (mac_pos + 1) None) with
      | None => Err (mkStatus INVALID_ARGUMENT "invalid JWT MAC")
      | Some mac_value =>
          let verify_result :=
            VerifyMac (mac_ self) mac_value unsigned_token in
          if negb (ok verify_result) then Err verify_result
          else
            match StrSplit unsigned_token dot with
            | [part0; part1] =>
                let validate_header_result :=
                  ValidateHeader part0 (algorithm_ self) in
                if negb (ok validate_header_result)
                then Err validate_header_result
                else
                  match DecodePayload part1 with
                  | None =>
                      Err (mkStatus INVALID_ARGUMENT "invalid JWT payload")
                  | Some json_payload =>
                      match FromString json_payload with
                      | Err st => Err st
                      | Ok raw_jwt =>
                          let validate_result :=
                            Validate validator raw_jwt in
                          if negb (ok validate_result)
                          then Err validate_result
                          else Ok (mkVerifiedJwt raw_jwt)
                      end
                  end
            | _ =>
                Err (mkStatus INVALID_ARGUMENT
"only tokens in JWS compact serialization format are supported")
            end
      end
  end.
End JwtMacImplMethods.

(** ** What JwtMacImpl relies on in its collaborators

    The segments of a compact token are base64url text, which has no dot;
    decoding undoes encoding; the header made for the algorithm [alg] of
    the handle passes the validation for [alg]. *)

Definition no_dot (s : string) : Prop := count_char s dot = O.

Record JwtFormat_laws {jwt_format : JwtFormat} (alg : string) : Prop := {
  CreateHeader_no_dot : no_dot (CreateHeader alg);
  EncodePayload_no_dot : forall payload, no_dot (EncodePayload payload);
  EncodeSignature_no_dot : forall tag, no_dot (EncodeSignature tag);
  ValidateHeader_CreateHeader :
    ok (ValidateHeader (CreateHeader alg) alg) = true;
  DecodePayload_EncodePayload :
    forall payload, DecodePayload (EncodePayload payload) = Some payload;
  DecodeSignature_EncodeSignature :
    forall tag, DecodeSignature (EncodeSignature tag) = Some tag
}.

Arguments CreateHeader_no_dot {jwt_format alg} _.
Arguments EncodePayload_no_dot {jwt_format alg} _ payload.
Arguments EncodeSignature_no_dot {jwt_format alg} _ tag.
Arguments ValidateHeader_CreateHeader {jwt_format alg} _.
Arguments DecodePayload_EncodePayload {jwt_format alg} _ payload.
Arguments DecodeSignature_EncodeSignature {jwt_format alg} _ tag.

(** A MAC accepts the tag it computed for a message. *)
Definition Mac_verifies_computed (m : Mac) : Prop :=
  forall data tag, ComputeMac m data = Ok tag -> ok (VerifyMac m tag data) = true.

(** The JSON text written for [token] parses back to [token]. *)
Definition Json_round_trips {json_util : JsonUtil} (token : RawJwt) : Prop :=
  forall text, ToString token = Ok text -> FromString text = Ok token.



(** The specification files a token that does not split or decode under
    the kind MalformedToken; in [VerifyMacAndDecode] these are the statuses
    built for a missing dot, a tag or payload that does not decode, and a
    signing input that does not split in two. *)
Definition MalformedToken (st : Status) : Prop :=
  st ∈ [mkStatus INVALID_ARGUMENT "invalid token";
        mkStatus INVALID_ARGUMENT "invalid JWT MAC";
        mkStatus INVALID_ARGUMENT
          "only tokens in JWS compact serialization format are supported";
        mkStatus INVALID_ARGUMENT "invalid JWT payload"].

(** ** Instances of the collaborators

    Small executable implementations of the interfaces above, on which the
    pipeline can be run: unpadded base64url for the three segments, with a
    decoder that drops the bits that fill no byte and one that refuses
    them, a JSON codec for objects with at most one string member, a
    one-byte keyed checksum and a tag that repeats the message as the MAC,
    and a validator without expectations.  The theorems on [JwtMacImpl]
    hold for every implementation of the interfaces; these serve the
    concrete tokens. *)

(** Modelled from the spec: the base64url codec of section 4.1, whose code
    ([jwt_format.cc]) is not among the sources.  Encoding emits the URL-safe
    alphabet with the padding removed.  Decoding accepts only that alphabet
    and a trailing run of [=], which it strips; what is left must not have
    a length of 1 modulo 4. *)
Definition base64url_alphabet : string :=
  "ABCDEFGHIJKLMNOPQRSTUVWXYZabcdefghijklmnopqrstuvwxyz0123456789-_".

(** The padding character. *)
Definition pad : ascii := "="%char.

(** [s] without its trailing run of padding characters. *)
Fixpoint strip_padding (s : string) : string :=
  match s with
  | EmptyString => EmptyString
  | String a r =>
      match strip_padding r with
      | EmptyString => if Ascii.eqb a pad then EmptyString
                       else String a EmptyString
      | r' => String a r'
      end
  end.

Fixpoint index_of (c : ascii) (s : string) : option N :=
  match s with
  | EmptyString => None
  | String a r =>
      if Ascii.eqb a c then Some 0%N else N.succ <$> index_of c r
  end.

Definition sextet_to_char (n : N) : ascii :=
  default "A"%char (String.get (N.to_nat n) base64url_alphabet).

Definition char_to_sextet (c : ascii) : option N :=
  index_of c base64url_alphabet.

Fixpoint sextets_of_bytes (l : list N) : list N :=
  match l with
  | a :: b :: c :: r =>
      (a / 4 :: (a mod 4) * 16 + b / 16 :: (b mod 16) * 4 + c / 64
         :: c mod 64 :: sextets_of_bytes r)%N
  | [a; b] => [a / 4; (a mod 4) * 16 + b / 16; (b mod 16) * 4]%N
  | [a] => [a / 4; (a mod 4) * 16]%N
  | [] => []
  end.

Fixpoint bytes_of_sextets (l : list N) : option (list N) :=
  match l with
  | w :: x :: y :: z :: r =>
      bs ← bytes_of_sextets r;
      Some (w * 4 + x / 16 :: (x mod 16) * 16 + y / 4 :: (y mod 4) * 64 + z
              :: bs)%N
  | [w; x; y] => Some [w * 4 + x / 16; (x mod 16) * 16 + y / 4]%N
  | [w; x] => Some [w * 4 + x / 16]%N
  | [_] => None
  | [] => Some []
  end.

Definition bytes_of_string (s : string) : list N :=
  N_of_ascii <$> list_ascii_of_string s.

Definition string_of_bytes (l : list N) : string :=
  string_of_list_ascii (ascii_of_N <$> l).

(** Modelled from the spec: section 4.1, encoding without padding. *)
Definition base64url_encode (s : string) : string :=
  string_of_list_ascii
    (sextet_to_char <$> sextets_of_bytes (bytes_of_string s)).

(** Modelled from the spec: section 4.1, decoding.  A trailing run of [=]
    is stripped, every remaining character must be of the alphabet, and a
    remainder of one character is refused; the specification names no other
    check, so the bits of the last character that fill no byte are
    dropped. *)
Definition base64url_decode (s : string) : option string :=
  sextets ← mapM char_to_sextet (list_ascii_of_string (strip_padding s));
  string_of_bytes <$> bytes_of_sextets sextets.

(** The double quote character. *)
Definition dquote : string := String "034"%char EmptyString.

(** The text of a JSON object with the single string member [k : v]. *)
Definition json_member (k v : string) : string :=
  "{" +:+ dquote +:+ k +:+ dquote +:+ ":" +:+ dquote +:+ v +:+ dquote +:+ "}".

Fixpoint strip_prefix (p s : string) : option string :=
  match p, s with
  | EmptyString, _ => Some s
  | String a p', String b s' =>
      if Ascii.eqb a b then strip_prefix p' s' else None
  | String _ _, EmptyString => None
  end.

(** The text before and after the first occurrence of [c]. *)
Fixpoint split_at_char (c : ascii) (s : string) : option (string * string) :=
  match s with
  | EmptyString => None
  | String a r =>
      if Ascii.eqb a c then Some (EmptyString, r)
      else '(before, after) ← split_at_char c r; Some (String a before, after)
  end.

Definition parse_member (s : string) : option (string * string) :=
  r1 ← strip_prefix ("{" +:+ dquote) s;
  '(k, r2) ← split_at_char "034"%char r1;
  r3 ← strip_prefix (":" +:+ dquote) r2;
  '(v, r4) ← split_at_char "034"%char r3;
  if String.eqb r4 "}" then Some (k, v) else None.

Definition flat_json : JsonUtil := {|
  JsonStringToProtoStruct s :=
    if String.eqb s "{}" then Ok ∅
    else
      match parse_member s with
      | Some (k, v) => Ok {[ k := StringValue v ]}
      | None => Err (mkStatus INVALID_ARGUMENT "invalid JSON")
      end;
  JsonStringToProtoList s :=
    if String.eqb s "[]" then Ok []
    else Err (mkStatus INVALID_ARGUMENT "invalid JSON");
  ProtoStructToJsonString fields :=
    match map_to_list fields with
    | [] => Ok "{}"
    | [(k, StringValue v)] => Ok (json_member k v)
    | _ => Err (mkStatus INTERNAL "unsupported JSON object")
    end;
  ProtoListToJsonString values :=
    match values with
    | [] => Ok "[]"
    | _ => Err (mkStatus INTERNAL "unsupported JSON array")
    end
|}.

(** Modelled from the spec: the format helpers of sections 4.1 and 4.4 on
    the codec above.  The header has the single member [alg] (the
    specification lets an implementation leave [typ] out), and the validation
    accepts exactly the header made for the algorithm, which the validation
    of section 4.4 accepts as well. *)
Definition base64url_format : JwtFormat := {|
  CreateHeader alg := base64url_encode (json_member "alg" alg);
  ValidateHeader encoded_header alg :=
    if String.eqb encoded_header (base64url_encode (json_member "alg" alg))
    then OkStatus
    else mkStatus INVALID_ARGUMENT "invalid header";
  EncodePayload := base64url_encode;
  DecodePayload := base64url_decode;
  EncodeSignature := base64url_encode;
  DecodeSignature := base64url_decode
|}.

(** A keyed checksum over the bytes of the message, as a one-byte tag. *)
Definition checksum (key : N) (data : string) : string :=
  string_of_bytes
    [foldl (fun acc b => (acc * 31 + b) mod 256)%N key (bytes_of_string data)].

Definition checksum_mac (key : N) : Mac := {|
  ComputeMac data := Ok (checksum key data);
  VerifyMac tag data :=
    if String.eqb tag (checksum key data) then OkStatus
    else mkStatus INVALID_ARGUMENT "verification failed"
|}.

Definition checksum_jwt_mac : JwtMacImpl := mkJwtMacImpl (checksum_mac 7) "HS256".

(** The codec above with a canonical decoder: a text is accepted only when
    it is what the encoder writes for the bytes it decodes to, so that a
    set bit of the last character that fills no byte is refused. *)
Definition base64url_decode_canonical (s : string) : option string :=
  match base64url_decode s with
  | Some bytes =>
      if String.eqb (base64url_encode bytes) s then Some bytes else None
  | None => None
  end.

Definition base64url_canonical_format : JwtFormat := {|
  CreateHeader alg := base64url_encode (json_member "alg" alg);
  ValidateHeader encoded_header alg :=
    if String.eqb encoded_header (base64url_encode (json_member "alg" alg))
    then OkStatus
    else mkStatus INVALID_ARGUMENT "invalid header";
  EncodePayload := base64url_encode;
  DecodePayload := base64url_decode_canonical;
  EncodeSignature := base64url_encode;
  DecodeSignature := base64url_decode_canonical
|}.



(** A validator that expects nothing of the claims. *)
Definition any_validator : JwtValidator := mkJwtValidator (fun _ => OkStatus).

(** The claim set with the single claim [iss = "joe"]. *)
Definition joe : RawJwt :=
  match Build (SetIssuer "joe" RawJwtBuilder_new) with
  | Ok token => token
  | Err _ => RawJwt_default
  end.

(** The claim set with the audiences [a] and [b], added in this order. *)
Definition two_audiences : RawJwt :=
  mkRawJwt
    (builder_json_proto_ (AddAudience "b" (AddAudience "a" RawJwtBuilder_new))).

(** The claim set whose [aud] is the single string [a], as the JSON object
    with that one member parses. *)
Definition single_audience : RawJwt :=
  mkRawJwt {[ kJwtClaimAudience := StringValue "a" ]}.

(** A validator that accepts the claim sets of the issuer [unknown] only,
    as the second validator of the test CreateAndValidateToken does. *)
Definition unknown_issuer_validator : JwtValidator :=
  mkJwtValidator (fun token =>
    match GetIssuer token with
    | Ok issuer =>
        if String.eqb issuer "unknown" then OkStatus
        else mkStatus INVALID_ARGUMENT "wrong issuer"
    | Err st => st
    end).

(** The handle with the key of [checksum_jwt_mac] and the algorithm
    HS384. *)
Definition checksum_jwt_mac_HS384 : JwtMacImpl :=
  mkJwtMacImpl (checksum_mac 7) "HS384".

(** ** Sequences of builder calls

    A claim set is made by calling methods of one [RawJwtBuilder] in some
    order and then [Build]; a call is one method with its arguments, and
    the status an adder returns is dropped, as a caller may do. *)

Inductive BuilderCall : Type :=
  | CallSetIssuer (issuer : string)
  | CallSetSubject (subject : string)
  | CallAddAudience (audience : string)
  | CallSetJwtId (jwid : string)
  | CallSetExpiration (expiration : Time)
  | CallSetNotBefore (notBefore : Time)
  | CallSetIssuedAt (issuedAt : Time)
  | CallAddNullClaim (name : string)
  | CallAddBooleanClaim (name : string) (bool_value : bool)
  | CallAddStringClaim (name : string) (string_value : string)
  | CallAddNumberClaim (name : string) (double_value : double)
  | CallAddJsonObjectClaim (name : string) (object_value : string)
  | CallAddJsonArrayClaim (name : string) (array_value : string).

Section BuilderCalls.
Context {json_util : JsonUtil}.

Definition call (c : BuilderCall) (b : RawJwtBuilder) : RawJwtBuilder :=
  match c with
  | CallSetIssuer issuer => SetIssuer issuer b
  | CallSetSubject subject => SetSubject subject b
  | CallAddAudience audience => AddAudience audience b
  | CallSetJwtId jwid => SetJwtId jwid b
  | CallSetExpiration expiration => SetExpiration expiration b
  | CallSetNotBefore notBefore => SetNotBefore notBefore b
  | CallSetIssuedAt issuedAt => SetIssuedAt issuedAt b
  | CallAddNullClaim name => snd (AddNullClaim name b)
  | CallAddBooleanClaim name v => snd (AddBooleanClaim name v b)
  | CallAddStringClaim name v => snd (AddStringClaim name v b)
  | CallAddNumberClaim name v => snd (AddNumberClaim name v b)
  | CallAddJsonObjectClaim name text => snd (AddJsonObjectClaim name text b)
  | CallAddJsonArrayClaim name text => snd (AddJsonArrayClaim name text b)
  end.

(** The calls of [cs], first to last, on the builder [b]. *)
Definition calls (cs : list BuilderCall) (b : RawJwtBuilder) : RawJwtBuilder :=
  foldl (fun b c => call c b) b cs.
End BuilderCalls.

(** Whether a call is one of the seven methods for registered claims; the
    other six are the adders of custom claims. *)
Definition is_registered_call (c : BuilderCall) : bool :=
  match c with
  | CallSetIssuer _ | CallSetSubject _ | CallAddAudience _ | CallSetJwtId _
  | CallSetExpiration _ | CallSetNotBefore _ | CallSetIssuedAt _ => true
  | _ => false
  end.

(** The kinds that the methods of the builder give the registered claims:
    a string for [iss], [sub] and [jti], a non-empty array of strings for
    [aud], and a number converted from a 32-bit [int] for [exp], [nbf] and
    [iat]. *)
Definition registered_kinds (fields : Struct) : Prop :=
  (forall v, fields !! kJwtClaimIssuer = Some v -> exists s, v = StringValue s) /\
  (forall v, fields !! kJwtClaimSubject = Some v -> exists s, v = StringValue s) /\
  (forall v, fields !! kJwtClaimJwtId = Some v -> exists s, v = StringValue s) /\
  (forall v, fields !! kJwtClaimAudience = Some v ->
     exists auds, auds <> [] /\ v = ListValue (StringValue <$> auds)) /\
  (forall v, fields !! kJwtClaimExpiration = Some v ->
     exists z, - 2 ^ 31 <= z < 2 ^ 31 /\ v = NumberValue (int_to_double z)) /\
  (forall v, fields !! kJwtClaimNotBefore = Some v ->
     exists z, - 2 ^ 31 <= z < 2 ^ 31 /\ v = NumberValue (int_to_double z)) /\
  (forall v, fields !! kJwtClaimIssuedAt = Some v ->
     exists z, - 2 ^ 31 <= z < 2 ^ 31 /\ v = NumberValue (int_to_double z)).

(** The claim set [Build] returns for the builder [b]. *)
Definition built (b : RawJwtBuilder) : RawJwt :=
  mkRawJwt (builder_json_proto_ b).

(** ** jwt_hmac_key_manager.h: JwtHmacKeyManager::JwtMacFactory *)

(** [google::crypto::tink::HashType]: the enumerators the key managers
    name, and any other value of the enumeration. *)
Inductive HashType : Type :=
  | SHA256 | SHA384 | SHA512
  | OtherHashType (value : Z).

(** The fields [version], [hash_type] and [key_value] of the message
    [JwtHmacKey]. *)
Record JwtHmacKey : Type := mkJwtHmacKey {
  hmac_version : Z;
  hash_type : HashType;
  key_value : string
}.

Section JwtHmacKeyManager.
(** [util::Enums] and [subtle::HmacBoringSsl::New] are used as they are
    declared: the name of a hash type, its [subtle] counterpart, and the
    constructor of the HMAC for a hash, a tag size and a key. *)
Context {SubtleHashType : Type}.
Variable HashName : HashType -> string.
Variable ProtoToSubtle : HashType -> SubtleHashType.
Variable HmacBoringSsl_New : SubtleHashType -> Z -> string -> StatusOr Mac.

Definition JwtMacFactory_Create (jwt_hmac_key : JwtHmacKey)
    : StatusOr JwtMacImpl :=
  let selected :=
    match hash_type jwt_hmac_key with
    | SHA256 => Some (32, "HS256")
    | SHA384 => Some (48, "HS384")
    | SHA512 => Some (64, "HS512")
    | OtherHashType _ => None
    end in
  match selected with
  | None =>
      Err (mkStatus INVALID_ARGUMENT
             ("HashType '" +:+ HashName (hash_type jwt_hmac_key) +:+
              "' is not supported."))
  | Some (tag_size, algorithm) =>
      match HmacBoringSsl_New (ProtoToSubtle (hash_type jwt_hmac_key))
              tag_size (key_value jwt_hmac_key) with
      | Err st => Err st
      | Ok mac => Ok (mkJwtMacImpl mac algorithm)
      end
  end.
End JwtHmacKeyManager.

(** ** raw_jwt_ecdsa_verify_key_manager.cc *)

(** [JwtEcdsaAlgorithm]: the three supported algorithms and any other value
    of the enumeration. *)
Inductive JwtEcdsaAlgorithm : Type :=
  | ES256 | ES384 | ES512
  | OtherEcdsaAlgorithm (value : Z).

(** The enumerators of [EllipticCurveType] that the file names. *)
Inductive EllipticCurveType : Type := NIST_P256 | NIST_P384 | NIST_P521.

Inductive EcdsaSignatureEncoding : Type := DER | IEEE_P1363.

(** The fields [version], [algorithm], [x] and [y] of the message
    [JwtEcdsaPublicKey]. *)
Record JwtEcdsaPublicKey : Type := mkJwtEcdsaPublicKey {
  ecdsa_version : Z;
  ecdsa_algorithm : JwtEcdsaAlgorithm;
  ecdsa_x : string;
  ecdsa_y : string
}.

Definition Unsupported_Ecdsa_Algorithm : Status :=
  mkStatus INVALID_ARGUMENT "Unsupported Ecdsa Algorithm".

Definition CurveForEcdsaAlgorithm (algorithm : JwtEcdsaAlgorithm)
    : StatusOr EllipticCurveType :=
  match algorithm with
  | ES256 => Ok NIST_P256
  | ES384 => Ok NIST_P384
  | ES512 => Ok NIST_P521
  | OtherEcdsaAlgorithm _ => Err Unsupported_Ecdsa_Algorithm
  end.

Definition HashForEcdsaAlgorithm (algorithm : JwtEcdsaAlgorithm)
    : StatusOr HashType :=
  match algorithm with
  | ES256 => Ok SHA256
  | ES384 => Ok SHA384
  | ES512 => Ok SHA512
  | OtherEcdsaAlgorithm _ => Err Unsupported_Ecdsa_Algorithm
  end.

Definition ValidateAlgorithm (algorithm : JwtEcdsaAlgorithm) : Status :=
  match algorithm with
  | ES256 | ES384 | ES512 => OkStatus
  | OtherEcdsaAlgorithm _ => Unsupported_Ecdsa_Algorithm
  end.

Section RawJwtEcdsaVerifyKeyManager.
(** The curve and hash types of [subtle], the verifier that
    [subtle::EcdsaVerifyBoringSsl::New] makes from a key, a hash and a
    signature encoding, [ValidateVersion] of [util/validation.h] and the
    version of the key manager are used as they are declared. *)
Context {SubtleCurveType SubtleHashType PublicKeyVerify : Type}.
Variable ProtoToSubtle_curve : EllipticCurveType -> SubtleCurveType.
Variable ProtoToSubtle_hash : HashType -> SubtleHashType.

(** [subtle::SubtleUtilBoringSSL::EcKey]: the fields that are set. *)
Record EcKey : Type := mkEcKey {
  curve : SubtleCurveType;
  pub_x : string;
  pub_y : string
}.

Variable EcdsaVerifyBoringSsl_New :
  EcKey -> SubtleHashType -> EcdsaSignatureEncoding -> StatusOr PublicKeyVerify.
Variable ValidateVersion : Z -> Z -> Status.
Variable get_version : Z.

Definition PublicKeyVerifyFactory_Create (ecdsa_public_key : JwtEcdsaPublicKey)
    : StatusOr PublicKeyVerify :=
  match CurveForEcdsaAlgorithm (ecdsa_algorithm ecdsa_public_key) with
  | Err st => Err st
  | Ok curve_value =>
      let ec_key :=
        mkEcKey (ProtoToSubtle_curve curve_value) (ecdsa_x ecdsa_public_key)
          (ecdsa_y ecdsa_public_key) in
      match HashForEcdsaAlgorithm (ecdsa_algorithm ecdsa_public_key) with
      | Err st => Err st
      | Ok hash_value =>
          match EcdsaVerifyBoringSsl_New ec_key
                  (ProtoToSubtle_hash hash_value) IEEE_P1363 with
          | Err st => Err st
          | Ok verifier => Ok verifier
          end
      end
  end.

Definition ValidateKey (key : JwtEcdsaPublicKey) : Status :=
  let status := ValidateVersion (ecdsa_version key) get_version in
  if negb (ok status) then status
  else ValidateAlgorithm (ecdsa_algorithm key).
End RawJwtEcdsaVerifyKeyManager.

(** ** secret_data_internal.h *)

(** Memory is a sequence of bytes and a pointer is a position in it.
    [SafeZeroMemory] writes through [ptr] and moves on, [size] times; a
    write past the end of the memory, which C++ leaves undefined, writes
    nothing here. *)
Fixpoint SafeZeroMemory (memory : list Z) (ptr : nat) (size : nat) : list Z :=
  match size with
  | O => memory
  | S size' => SafeZeroMemory (<[ptr := 0]> memory) (S ptr) size'
  end.

(** [SanitizingAllocator<T>::deallocate(ptr, n)], up to the release of the
    block: the memory the block is handed back with.  [sizeof_T] is
    [sizeof(T)]. *)
Definition SanitizingAllocator_deallocate (sizeof_T : nat) (memory : list Z)
    (ptr : nat) (n : nat) : list Z :=
  SafeZeroMemory memory ptr (n * sizeof_T).

(** ** Instances for the key manager and the memory

    A version check against a largest version, a constructor of verifiers
    that refuses an empty coordinate and otherwise answers with what it was
    given, two keys, and a small memory. *)

Definition version_at_most (candidate max_expected : Z) : Status :=
  if candidate <=? max_expected then OkStatus
  else mkStatus INVALID_ARGUMENT "unsupported key version".

Definition described_verifier_new (ec_key : @EcKey EllipticCurveType)
    (hash : HashType) (encoding : EcdsaSignatureEncoding)
    : StatusOr (@EcKey EllipticCurveType * HashType * EcdsaSignatureEncoding) :=
  if String.eqb (pub_x ec_key) "" then
    Err (mkStatus INVALID_ARGUMENT "invalid public key")
  else Ok (ec_key, hash, encoding).

Definition es256_key : JwtEcdsaPublicKey := mkJwtEcdsaPublicKey 0 ES256 "x" "y".

Definition unknown_algorithm_key : JwtEcdsaPublicKey :=
  mkJwtEcdsaPublicKey 0 (OtherEcdsaAlgorithm 0) "x" "y".

Definition ten_bytes : list Z := [7; 1; 2; 3; 4; 5; 6; 7; 8; 9].

(** * Properties *)

(** ** Strings: the last dot and the split *)

Lemma find_last_of_None (s : string) (c : ascii) :
  find_last_of s c = None <-> count_char s c = O.
Proof.
  induction s as [|a r IH]; simpl; [tauto|].
  destruct (find_last_of r c) as [i|], (Ascii.eqb a c); simpl;
    split; intros Hx; try discriminate; try reflexivity.
  - apply IH in Hx. discriminate.
  - apply IH. reflexivity.
Qed.


(** In [s . t] with no dot in [t], the last dot is the one written. *)
Lemma find_last_of_app_dot (s t : string) :
  count_char t dot = O ->
  find_last_of (s +:+ String dot t) dot = Some (String.length s).
Proof.
  intros Ht. apply find_last_of_None in Ht.
  induction s as [|a r IH]; simpl.
  - rewrite Ht. reflexivity.
  - rewrite IH. reflexivity.
Qed.

Lemma string_take_app (s t : string) :
  string_take (String.length s) (s +:+ t) = s.
Proof.
  induction s as [|a r IH]; simpl.
  - destruct t; reflexivity.
  - rewrite IH. reflexivity.
Qed.

Lemma string_drop_app (s t : string) :
  string_drop (String.length s) (s +:+ t) = t.
Proof. induction s as [|a r IH]; simpl; [reflexivity | exact IH]. Qed.

(** Conversely, the last dot cuts a string into a prefix and a dot-free
    suffix. *)
Lemma find_last_of_Some (s : string) (i : nat) :
  find_last_of s dot = Some i ->
  s = string_take i s +:+ String dot (string_drop (S i) s) /\
  count_char (string_drop (S i) s) dot = O.
Proof.
  revert i. induction s as [|a r IH]; intros i Hi; simpl in Hi;
    [discriminate|].
  destruct (find_last_of r dot) as [j|] eqn:Hr.
  - injection Hi as <-. destruct (IH j eq_refl) as [Heq Hcnt].
    change (string_take (S j) (String a r)) with (String a (string_take j r)).
    change (string_drop (S (S j)) (String a r)) with (string_drop (S j) r).
    split; [exact (f_equal (String a) Heq) | exact Hcnt].
  - destruct (Ascii.eqb a dot) eqn:Ha; [|discriminate].
    injection Hi as <-. apply Ascii.eqb_eq in Ha. subst a. simpl.
    split; [reflexivity|]. apply find_last_of_None. exact Hr.
Qed.

Lemma substr_signing_input (s t : string) :
  substr (s +:+ String dot t) 0 (Some (String.length s)) = s.
Proof. unfold substr. simpl. apply string_take_app. Qed.

Lemma substr_encoded_tag (s t : string) :
  substr (s +:+ String dot t) (String.length s + 1) None = t.
Proof.
  unfold substr. replace (String.length s + 1)%nat with (S (String.length s))
    by lia.
  change (S (String.length s)) with (String.length (String dot s)).
  induction s as [|a r IH]; simpl; [reflexivity|]. exact IH.
Qed.

Lemma StrSplit_nonempty (s : string) (d : ascii) : StrSplit s d <> [].
Proof.
  destruct s as [|a r]; simpl; [discriminate|].
  destruct (Ascii.eqb a d); [discriminate|].
  destruct (StrSplit r d); discriminate.
Qed.

(** The number of pieces is one more than the number of delimiters. *)
Lemma StrSplit_length (s : string) (d : ascii) :
  length (StrSplit s d) = S (count_char s d).
Proof.
  induction s as [|a r IH]; simpl; [reflexivity|].
  destruct (Ascii.eqb a d); simpl; [rewrite IH; reflexivity|].
  destruct (StrSplit r d) as [|p ps] eqn:Hs; simpl in *; [discriminate|].
  exact IH.
Qed.

Lemma StrSplit_no_delimiter (s : string) (d : ascii) :
  count_char s d = O -> StrSplit s d = [s].
Proof.
  induction s as [|a r IH]; simpl; [reflexivity|].
  destruct (Ascii.eqb a d); simpl; [discriminate|].
  intros Hr. rewrite (IH Hr). reflexivity.
Qed.

Lemma StrSplit_header_payload (h p : string) :
  count_char h dot = O -> count_char p dot = O ->
  StrSplit (h +:+ String dot p) dot = [h; p].
Proof.
  intros Hh Hp. induction h as [|a r IH]; simpl.
  - rewrite (StrSplit_no_delimiter p dot Hp). reflexivity.
  - simpl in Hh. destruct (Ascii.eqb a dot); [discriminate|].
    rewrite (IH Hh). reflexivity.
Qed.

(** With any number of dots other than one, the split does not give two
    pieces. *)
Lemma StrSplit_not_two (s : string) :
  count_char s dot <> 1%nat ->
  match StrSplit s dot with [_; _] => False | _ => True end.
Proof.
  intros Hc. pose proof (StrSplit_length s dot) as Hl.
  destruct (StrSplit s dot) as [|p0 [|p1 [|p2 ps]]]; simpl in *;
    try exact I.
  lia.
Qed.

(** Two pieces are a dot-free prefix and a dot-free suffix around the one
    dot. *)
Lemma StrSplit_two (s h p : string) :
  StrSplit s dot = [h; p] ->
  s = h +:+ String dot p /\ count_char h dot = O /\ count_char p dot = O.
Proof.
  revert h. induction s as [|a r IH]; intros h Hs; simpl in Hs;
    [discriminate|].
  destruct (Ascii.eqb a dot) eqn:Ha.
  - apply Ascii.eqb_eq in Ha. subst a. injection Hs as <- Hr.
    pose proof (StrSplit_length r dot) as Hlen. rewrite Hr in Hlen.
    simpl in Hlen. assert (count_char r dot = O) as Hcnt by lia.
    rewrite (StrSplit_no_delimiter r dot Hcnt) in Hr. injection Hr as <-.
    split; [reflexivity|]. split; [reflexivity | exact Hcnt].
  - destruct (StrSplit r dot) as [|piece pieces] eqn:Hr; [discriminate|].
    injection Hs as <- ->. destruct (IH piece eq_refl) as (-> & Hh & Hp).
    split; [reflexivity|]. split; [|exact Hp]. simpl. rewrite Ha. exact Hh.
Qed.

(** ** Strings: one byte replaced *)






(** ** JwtMacImpl *)

Section JwtMacImplFacts.
Context {json_util : JsonUtil} {jwt_format : JwtFormat}.

(** On [signing_input . encoded_tag] with a dot-free tag segment, the
    verification cuts at the written dot. *)
Lemma VerifyMacAndDecode_cut (self : JwtMacImpl) (validator : JwtValidator)
    (signing_input encoded_tag : string) :
  no_dot encoded_tag ->
  find_last_of (signing_input +:+ "." +:+ encoded_tag) dot
    = Some (String.length signing_input) /\
  substr (signing_input +:+ "." +:+ encoded_tag) 0
    (Some (String.length signing_input)) = signing_input /\
  substr (signing_input +:+ "." +:+ encoded_tag)
    (String.length signing_input + 1) None = encoded_tag.
Proof.
  intros Ht. change ("." +:+ encoded_tag) with (String dot encoded_tag).
  split; [apply find_last_of_app_dot; exact Ht|].
  split; [apply substr_signing_input | apply substr_encoded_tag].
Qed.

(** Rewrites the cut of [VerifyMacAndDecode] on a token written as
    [signing_input . encoded_tag], given [Ht : no_dot encoded_tag]. *)
Ltac cut_compact self validator signing_input encoded_tag Ht :=
  unfold VerifyMacAndDecode;
  destruct (VerifyMacAndDecode_cut self validator signing_input encoded_tag Ht)
    as (-> & -> & ->).

(** C3: when the segment after the last dot decodes as a tag and the MAC
    does not verify it over the signing input, [VerifyMacAndDecode] returns
    the status of [VerifyMac], whatever the header validation, the payload
    decoding, the JSON parser and the validator would say of the rest. *)
Theorem VerifyMacAndDecode_mac_error_first (self : JwtMacImpl)
    (validator : JwtValidator) (signing_input encoded_tag mac_value : string) :
  no_dot encoded_tag ->
  DecodeSignature encoded_tag = Some mac_value ->
  ok (VerifyMac (mac_ self) mac_value signing_input) = false ->
  VerifyMacAndDecode self (signing_input +:+ "." +:+ encoded_tag) validator
    = Err (VerifyMac (mac_ self) mac_value signing_input).
Proof.
  intros Ht Hdec Hver.
  cut_compact self validator signing_input encoded_tag Ht.
  rewrite Hdec. cbn zeta. rewrite Hver. reflexivity.
Qed.

(** C4 (as amended): [VerifyMacAndDecode] cuts the token at its last dot.
    - Without any dot the result is INVALID_ARGUMENT, "invalid token".
    - Otherwise the token is [signing_input . encoded_tag] with no dot in
      [encoded_tag], and the tag is dealt with first: a tag that does not
      decode gives INVALID_ARGUMENT, "invalid JWT MAC", and one that does
      not verify gives the status of [VerifyMac].
    - Once the tag has verified, a signing input whose number of dots is not
      exactly one gives INVALID_ARGUMENT, "only tokens in JWS compact
      serialization format are supported".
    - With exactly one dot the two pieces go to the header validation, the
      payload decoding and the JSON parser as they are, and what these
      refuse is refused with their status.
    - Neither segment may be empty: when the header validation refuses the
      empty header and the JSON parser refuses what the empty payload
      decodes to, a token whose header or payload segment is empty is not
      accepted. *)
Theorem VerifyMacAndDecode_split (self : JwtMacImpl)
    (validator : JwtValidator) :
  (forall compact, no_dot compact ->
     VerifyMacAndDecode self compact validator
       = Err (mkStatus INVALID_ARGUMENT "invalid token")) /\
  (forall compact mac_pos, find_last_of compact dot = Some mac_pos ->
     compact = substr compact 0 (Some mac_pos) +:+ "." +:+
               substr compact (mac_pos + 1) None /\
     no_dot (substr compact (mac_pos + 1) None)) /\
  (forall signing_input encoded_tag, no_dot encoded_tag ->
     DecodeSignature encoded_tag = None ->
     VerifyMacAndDecode self (signing_input +:+ "." +:+ encoded_tag) validator
       = Err (mkStatus INVALID_ARGUMENT "invalid JWT MAC")) /\
  (forall signing_input encoded_tag mac_value, no_dot encoded_tag ->
     DecodeSignature encoded_tag = Some mac_value ->
     ok (VerifyMac (mac_ self) mac_value signing_input) = false ->
     VerifyMacAndDecode self (signing_input +:+ "." +:+ encoded_tag) validator
       = Err (VerifyMac (mac_ self) mac_value signing_input)) /\
  (forall signing_input encoded_tag mac_value, no_dot encoded_tag ->
     DecodeSignature encoded_tag = Some mac_value ->
     ok (VerifyMac (mac_ self) mac_value signing_input) = true ->
     count_char signing_input dot <> 1%nat ->
     VerifyMacAndDecode self (signing_input +:+ "." +:+ encoded_tag) validator
       = Err (mkStatus INVALID_ARGUMENT
           "only tokens in JWS compact serialization format are supported")) /\
  (forall encoded_header encoded_payload encoded_tag mac_value,
     no_dot encoded_header -> no_dot encoded_payload -> no_dot encoded_tag ->
     DecodeSignature encoded_tag = Some mac_value ->
     ok (VerifyMac (mac_ self) mac_value
           (encoded_header +:+ "." +:+ encoded_payload)) = true ->
     (ok (ValidateHeader encoded_header (algorithm_ self)) = false ->
      VerifyMacAndDecode self
        ((encoded_header +:+ "." +:+ encoded_payload) +:+ "." +:+ encoded_tag)
        validator
        = Err (ValidateHeader encoded_header (algorithm_ self))) /\
     (ok (ValidateHeader encoded_header (algorithm_ self)) = true ->
      DecodePayload encoded_payload = None ->
      VerifyMacAndDecode self
        ((encoded_header +:+ "." +:+ encoded_payload) +:+ "." +:+ encoded_tag)
        validator
        = Err (mkStatus INVALID_ARGUMENT "invalid JWT payload")) /\
     (ok (ValidateHeader encoded_header (algorithm_ self)) = true ->
      forall json_payload st,
        DecodePayload encoded_payload = Some json_payload ->
        FromString json_payload = Err st ->
        VerifyMacAndDecode self
          ((encoded_header +:+ "." +:+ encoded_payload) +:+ "." +:+
           encoded_tag) validator
          = Err st)) /\
  (ok (ValidateHeader EmptyString (algorithm_ self)) = false ->
   (forall json_payload, DecodePayload EmptyString = Some json_payload ->
      is_ok (FromString json_payload) = false) ->
   forall encoded_header encoded_payload encoded_tag,
     no_dot encoded_header -> no_dot encoded_payload -> no_dot encoded_tag ->
     encoded_header = EmptyString \/ encoded_payload = EmptyString ->
     is_ok (VerifyMacAndDecode self
              ((encoded_header +:+ "." +:+ encoded_payload) +:+ "." +:+
               encoded_tag) validator) = false).
Proof.
  repeat apply conj.
  - intros compact Hc. apply find_last_of_None in Hc.
    unfold VerifyMacAndDecode. rewrite Hc. reflexivity.
  - intros compact mac_pos Hpos.
    destruct (find_last_of_Some compact mac_pos Hpos) as [Heq Hcnt].
    unfold substr, no_dot. cbn [string_drop].
    replace (mac_pos + 1)%nat with (S mac_pos) by lia.
    split; [exact Heq | exact Hcnt].
  - intros signing_input encoded_tag Ht Hdec.
    cut_compact self validator signing_input encoded_tag Ht.
    rewrite Hdec. reflexivity.
  - intros signing_input encoded_tag mac_value Ht Hdec Hver.
    cut_compact self validator signing_input encoded_tag Ht.
    rewrite Hdec. cbn zeta. rewrite Hver. reflexivity.
  - intros signing_input encoded_tag mac_value Ht Hdec Hver Hdots.
    cut_compact self validator signing_input encoded_tag Ht.
    rewrite Hdec. cbn zeta. rewrite Hver. cbn [negb].
    pose proof (StrSplit_not_two signing_input Hdots) as Hsplit.
    destruct (StrSplit signing_input dot) as [|p0 [|p1 [|p2 ps]]];
      try reflexivity.
    destruct Hsplit.
  - intros encoded_header encoded_payload encoded_tag mac_value
      Hh Hp Ht Hdec Hver.
    repeat apply conj.
    + intros Hhdr.
      cut_compact self validator (encoded_header +:+ "." +:+ encoded_payload)
        encoded_tag Ht.
      rewrite Hdec. cbn zeta. rewrite Hver. cbn [negb].
      change ("." +:+ encoded_payload) with (String dot encoded_payload).
      rewrite (StrSplit_header_payload _ _ Hh Hp). rewrite Hhdr.
      reflexivity.
    + intros Hhdr Hpay.
      cut_compact self validator (encoded_header +:+ "." +:+ encoded_payload)
        encoded_tag Ht.
      rewrite Hdec. cbn zeta. rewrite Hver. cbn [negb].
      change ("." +:+ encoded_payload) with (String dot encoded_payload).
      rewrite (StrSplit_header_payload _ _ Hh Hp). rewrite Hhdr, Hpay.
      reflexivity.
    + intros Hhdr json_payload st Hpay Hjson.
      cut_compact self validator (encoded_header +:+ "." +:+ encoded_payload)
        encoded_tag Ht.
      rewrite Hdec. cbn zeta. rewrite Hver. cbn [negb].
      change ("." +:+ encoded_payload) with (String dot encoded_payload).
      rewrite (StrSplit_header_payload _ _ Hh Hp). rewrite Hhdr, Hpay, Hjson.
      reflexivity.
  - intros Hempty_header Hempty_payload encoded_header encoded_payload
      encoded_tag Hh Hp Ht Hempty.
    cut_compact self validator (encoded_header +:+ "." +:+ encoded_payload)
      encoded_tag Ht.
    destruct (DecodeSignature encoded_tag) as [mac_value|]; [|reflexivity].
    cbn zeta.
    destruct (ok (VerifyMac (mac_ self) mac_value
                    (encoded_header +:+ "." +:+ encoded_payload)));
      [|reflexivity].
    cbn [negb].
    change ("." +:+ encoded_payload) with (String dot encoded_payload).
    rewrite (StrSplit_header_payload _ _ Hh Hp).
    destruct (ok (ValidateHeader encoded_header (algorithm_ self))) eqn:Hhdr;
      [|reflexivity].
    cbn [negb].
    destruct Hempty as [-> | ->]; [congruence|].
    destruct (DecodePayload EmptyString) as [json_payload|] eqn:Hpay;
      [|reflexivity].
    specialize (Hempty_payload json_payload eq_refl).
    destruct (FromString json_payload); [discriminate Hempty_payload|].
    reflexivity.
Qed.

(** What is accepted has three dot-free segments, the third of which
    decodes to a tag that the MAC verifies over the first two. *)
Lemma VerifyMacAndDecode_accepted (self : JwtMacImpl)
    (validator : JwtValidator) (compact : string) :
  is_ok (VerifyMacAndDecode self compact validator) = true ->
  exists encoded_header encoded_payload encoded_tag mac_value,
    compact
      = (encoded_header +:+ "." +:+ encoded_payload) +:+ "." +:+ encoded_tag /\
    no_dot encoded_header /\ no_dot encoded_payload /\ no_dot encoded_tag /\
    DecodeSignature encoded_tag = Some mac_value /\
    ok (VerifyMac (mac_ self) mac_value
          (encoded_header +:+ "." +:+ encoded_payload)) = true.
Proof.
  unfold VerifyMacAndDecode.
  destruct (find_last_of compact dot) as [mac_pos|] eqn:Hpos; [|discriminate].
  destruct (find_last_of_Some compact mac_pos Hpos) as [Heq Hcnt].
  unfold substr. cbn [string_drop].
  replace (mac_pos + 1)%nat with (S mac_pos) by lia.
  destruct (DecodeSignature (string_drop (S mac_pos) compact))
    as [mac_value|] eqn:Hdec; [|discriminate].
  cbn zeta.
  destruct (ok (VerifyMac (mac_ self) mac_value (string_take mac_pos compact)))
    eqn:Hver; [|discriminate].
  cbn [negb].
  destruct (StrSplit (string_take mac_pos compact) dot)
    as [|h [|p [|p2 ps]]] eqn:Hsplit; try discriminate.
  intros _. destruct (StrSplit_two _ _ _ Hsplit) as (Hhp & Hh & Hp).
  exists h, p, (string_drop (S mac_pos) compact), mac_value.
  rewrite Hhp in Heq, Hver.
  repeat split; assumption.
Qed.



(** C1: a token produced by [ComputeMacAndEncode] for the claim set
    [token] verifies, and the verified claims are [token], provided the
    validator accepts [token] (its time window includes the token's times)
    and the collaborators keep their contracts: the format helpers are
    inverse to each other and write no dot, the MAC accepts the tag it
    computed, and the JSON text of [token] parses back to [token]. *)
Theorem VerifyMacAndDecode_ComputeMacAndEncode (self : JwtMacImpl)
    (token : RawJwt) (validator : JwtValidator) (compact : string) :
  JwtFormat_laws (algorithm_ self) ->
  Mac_verifies_computed (mac_ self) ->
  Json_round_trips token ->
  ok (Validate validator token) = true ->
  ComputeMacAndEncode self token = Ok compact ->
  VerifyMacAndDecode self compact validator = Ok (mkVerifiedJwt token).
Proof.
  intros Hfmt Hmac Hjson Hval Hcompute.
  unfold ComputeMacAndEncode in Hcompute.
  destruct (ToString token) as [payload|st] eqn:Hpayload; [|discriminate].
  destruct (ComputeMac (mac_ self) _) as [tag|st] eqn:Htag; [|discriminate].
  injection Hcompute as <-.
  pose proof (EncodeSignature_no_dot Hfmt tag) as Ht.
  cut_compact self validator
    (CreateHeader (algorithm_ self) +:+ "." +:+ EncodePayload payload)
    (EncodeSignature tag) Ht.
  rewrite (DecodeSignature_EncodeSignature Hfmt). cbn zeta.
  rewrite (Hmac _ _ Htag). cbn [negb].
  change ("." +:+ EncodePayload payload)
    with (String dot (EncodePayload payload)).
  rewrite (StrSplit_header_payload _ _ (CreateHeader_no_dot Hfmt)
             (EncodePayload_no_dot Hfmt _)).
  rewrite (ValidateHeader_CreateHeader Hfmt). cbn [negb].
  rewrite (DecodePayload_EncodePayload Hfmt).
  rewrite (Hjson payload Hpayload). rewrite Hval. reflexivity.
Qed.

End JwtMacImplFacts.

(** ** Numbers and times *)

Lemma digits2_pos_bounds (p : positive) :
  2 ^ (Z.pos (digits2_pos p) - 1) <= Z.pos p < 2 ^ Z.pos (digits2_pos p).
Proof.
  assert (forall n, 0 < n -> 2 ^ n = 2 * 2 ^ (n - 1)) as Hpow.
  { intros n Hn. rewrite <- Z.pow_succ_r by lia. f_equal. lia. }
  induction p as [p IH|p IH|]; cbn [digits2_pos];
    [| |simpl; lia];
    rewrite Pos2Z.inj_succ;
    replace (Z.succ (Z.pos (digits2_pos p)) - 1)
      with (Z.pos (digits2_pos p)) by lia;
    rewrite Z.pow_succ_r by lia;
    pose proof (Hpow (Z.pos (digits2_pos p)) ltac:(lia)); lia.
Qed.

Lemma iter_xO_value (p k : positive) :
  Z.pos (Pos.iter xO p k) = Z.pos p * 2 ^ Z.pos k.
Proof.
  revert p. induction k as [|k IH] using Pos.peano_ind; intros p.
  - simpl. lia.
  - rewrite Pos.iter_succ, Pos2Z.inj_succ, Z.pow_succ_r by lia.
    rewrite Pos2Z.inj_xO, IH. lia.
Qed.

Lemma iter_xO_digits (p k : positive) :
  digits2_pos (Pos.iter xO p k) = (digits2_pos p + k)%positive.
Proof.
  induction k as [|k IH] using Pos.peano_ind.
  - simpl. lia.
  - rewrite Pos.iter_succ. cbn [digits2_pos]. rewrite IH. lia.
Qed.

(** Rounding an integer below 2^53 to binary64 only aligns its mantissa. *)
Lemma binary_round_small (s : bool) (p : positive) :
  Z.pos p < 2 ^ 53 ->
  exists m e, binary_round 53 1024 s p 0 = S754_finite s m e /\
    - 52 <= e <= 0 /\ Z.pos m = Z.pos p * 2 ^ (- e).
Proof.
  intros Hp.
  pose proof (digits2_pos_bounds p) as [Hlo Hhi].
  assert (Z.pos (digits2_pos p) <= 53) as Hd.
  { destruct (Z.le_gt_cases (Z.pos (digits2_pos p)) 53) as [|Hgt];
      [assumption|].
    assert (2 ^ 53 <= 2 ^ (Z.pos (digits2_pos p) - 1))
      by (apply Z.pow_le_mono_r; lia).
    lia. }
  unfold binary_round.
  assert (fexp 53 1024 (Z.pos (digits2_pos p) + 0)
          = Z.pos (digits2_pos p) - 53) as ->
    by (unfold fexp, emin; lia).
  unfold shl_align.
  destruct (Z.pos (digits2_pos p) - 53 - 0) as [|d|d] eqn:Hsub; [|lia|].
  - exists p, 0. split; [|split; [lia | simpl; lia]].
    unfold binary_round_aux, shr_fexp. cbn [Zdigits2].
    assert (fexp 53 1024 (Z.pos (digits2_pos p) + 0) - 0 = 0) as ->
      by (unfold fexp, emin; lia).
    cbn [shr shr_record_of_loc shr_m loc_of_shr_record round_nearest_even
         Zdigits2].
    assert (fexp 53 1024 (Z.pos (digits2_pos p) + 0) - 0 = 0) as ->
      by (unfold fexp, emin; lia).
    reflexivity.
  - exists (Pos.iter xO p d), (Z.pos (digits2_pos p) - 53).
    split; [|split; [lia|]].
    + unfold binary_round_aux, shr_fexp. cbn [Zdigits2].
      rewrite iter_xO_digits.
      assert (fexp 53 1024
                (Z.pos (digits2_pos p + d) + (Z.pos (digits2_pos p) - 53))
              - (Z.pos (digits2_pos p) - 53) = 0) as Hshift
        by (unfold fexp, emin; lia).
      rewrite Hshift.
      cbn [shr shr_record_of_loc shr_m loc_of_shr_record round_nearest_even
           Zdigits2].
      rewrite iter_xO_digits, Hshift. cbn [shr shr_m].
      destruct (Z.pos (digits2_pos p) - 53 <=? 1024 - 53) eqn:Hle;
        [reflexivity|].
      apply Z.leb_gt in Hle. lia.
    + rewrite iter_xO_value. f_equal. f_equal. lia.
Qed.

(** An integer below 2^53 in magnitude survives the conversion to [double]
    and back. *)
Lemma double_to_int64_int_to_double (z : Z) :
  - 2 ^ 53 < z < 2 ^ 53 -> double_to_int64 (int_to_double z) = Some z.
Proof.
  intros Hz.
  assert (forall s p, Z.pos p < 2 ^ 53 ->
            double_to_int64 (binary_round 53 1024 s p 0)
            = Some (if s then Z.neg p else Z.pos p)) as Hround.
  { intros s p Hp.
    destruct (binary_round_small s p Hp) as (m & e & -> & He & Hm).
    unfold double_to_int64.
    assert ((if 0 <=? e then Z.pos m * 2 ^ e else Z.pos m / 2 ^ (- e))
            = Z.pos p) as ->.
    { destruct (0 <=? e) eqn:E.
      - apply Z.leb_le in E. assert (e = 0) by lia. subst e.
        simpl in Hm. lia.
      - rewrite Hm. apply Z.div_mul. apply Z.pow_nonzero; lia. }
    assert (2 ^ 53 < 2 ^ 63) by reflexivity.
    destruct s.
    - change (- Z.pos p) with (Z.neg p).
      destruct (- 2 ^ 63 <=? Z.neg p) eqn:E1; [|apply Z.leb_gt in E1; lia].
      destruct (Z.neg p <? 2 ^ 63) eqn:E2;
        [reflexivity | apply Z.ltb_ge in E2; lia].
    - destruct (- 2 ^ 63 <=? Z.pos p) eqn:E1; [|apply Z.leb_gt in E1; lia].
      destruct (Z.pos p <? 2 ^ 63) eqn:E2;
        [reflexivity | apply Z.ltb_ge in E2; lia]. }
  destruct z as [|p|p]; [reflexivity| |];
    unfold int_to_double, binary_normalize; rewrite Hround; [reflexivity | lia
    | reflexivity | lia].
Qed.

Lemma static_cast_int_in_range (z : Z) :
  - 2 ^ 31 <= z < 2 ^ 31 -> static_cast_int z = z.
Proof.
  intros Hz. unfold static_cast_int. rewrite Z.mod_small; lia.
Qed.

(** [absl::ToUnixSeconds] gives the floor of the time in seconds. *)
Lemma ToUnixSeconds_floor (t : Time) :
  Time_wf t -> ToUnixSeconds t = floor_seconds t.
Proof.
  intros [_ Hlo]. unfold ToUnixSeconds, floor_seconds, Time_ticks.
  unfold ticks_per_second in *.
  rewrite Z.div_add_l by lia. rewrite Z.div_small by lia. lia.
Qed.

(** ** RawJwt: the accessors of registered claims *)

Lemma IsRegisteredClaimName_spec (name : string) :
  IsRegisteredClaimName name = true <-> name ∈ registered_claim_names.
Proof.
  unfold IsRegisteredClaimName, registered_claim_names.
  rewrite !orb_true_iff, !String.eqb_eq, !elem_of_cons, elem_of_nil.
  tauto.
Qed.

Lemma IsRegisteredClaimName_false (name : string) :
  IsRegisteredClaimName name = false <-> name ∉ registered_claim_names.
Proof.
  rewrite <- IsRegisteredClaimName_spec.
  destruct (IsRegisteredClaimName name); split; congruence.
Qed.

Lemma GetAudiences_loop_strings (auds audiences : list string) :
  GetAudiences_loop (StringValue <$> auds) audiences
    = Ok (audiences ++ auds)%list.
Proof.
  revert audiences. induction auds as [|a auds IH]; intros audiences; simpl.
  - rewrite app_nil_r. reflexivity.
  - rewrite IH, <- app_assoc. reflexivity.
Qed.

Lemma GetAudiences_loop_not_string (values : list Value)
    (audiences : list string) :
  Exists (fun value => kind_case value <> kStringValue) values ->
  GetAudiences_loop values audiences
    = Err (mkStatus INVALID_ARGUMENT "Audiences is not a list of strings").
Proof.
  intros Hex. revert audiences.
  induction values as [|value rest IH]; intros audiences.
  - inversion Hex.
  - destruct value; try reflexivity. simpl. apply IH.
    inversion Hex as [? ? Hk|]; [|assumption]. simpl in Hk. congruence.
Qed.

(** C5 (as amended): with [aud] stored as [v], [GetAudiences] returns the
    strings of [v] when [v] is an array of strings, and fails with
    INVALID_ARGUMENT for every other stored kind, a single string
    included, and for an array with an element that is not a string. *)
Theorem GetAudiences_stored (token : RawJwt) (v : Value) :
  json_proto_ token !! kJwtClaimAudience = Some v ->
  (forall auds, v = ListValue (StringValue <$> auds) ->
     GetAudiences token = Ok auds) /\
  (forall s, v = StringValue s ->
     GetAudiences token
       = Err (mkStatus INVALID_ARGUMENT "Audiences is not a list")) /\
  (kind_case v <> kListValue ->
     GetAudiences token
       = Err (mkStatus INVALID_ARGUMENT "Audiences is not a list")) /\
  (forall values, v = ListValue values ->
     Exists (fun value => kind_case value <> kStringValue) values ->
     GetAudiences token
       = Err (mkStatus INVALID_ARGUMENT "Audiences is not a list of strings")).
Proof.
  intros Hv. unfold GetAudiences. rewrite Hv. repeat apply conj.
  - intros auds ->. apply GetAudiences_loop_strings.
  - intros s ->. reflexivity.
  - intros Hk. destruct v; try reflexivity. simpl in Hk. congruence.
  - intros values -> Hex. apply GetAudiences_loop_not_string. exact Hex.
Qed.

(** [AddAudience] starts the array of audiences or appends to it, and
    [GetAudiences] reads the audiences back in the order they were added. *)
Lemma GetAudiences_AddAudience (audience : string) (b : RawJwtBuilder) :
  (builder_json_proto_ b !! kJwtClaimAudience = None ->
   GetAudiences (mkRawJwt (builder_json_proto_ (AddAudience audience b)))
     = Ok [audience]) /\
  (forall auds,
     builder_json_proto_ b !! kJwtClaimAudience
       = Some (ListValue (StringValue <$> auds)) ->
     GetAudiences (mkRawJwt (builder_json_proto_ (AddAudience audience b)))
       = Ok (auds ++ [audience])%list).
Proof.
  unfold GetAudiences, AddAudience. cbn [json_proto_ builder_json_proto_].
  split.
  - intros ->. rewrite lookup_insert_eq. reflexivity.
  - intros auds ->. rewrite lookup_insert_eq.
    change [StringValue audience] with (StringValue <$> [audience]).
    rewrite <- fmap_app.
    exact (GetAudiences_loop_strings (auds ++ [audience]) []).
Qed.

(** The five accessors that report a missing claim as NOT_FOUND. *)
Lemma accessors_absent_NOT_FOUND (token : RawJwt) :
  (json_proto_ token !! kJwtClaimAudience = None ->
     GetAudiences token = Err (mkStatus NOT_FOUND "No Audiences found")) /\
  (json_proto_ token !! kJwtClaimJwtId = None ->
     GetJwtId token = Err (mkStatus NOT_FOUND "No JwtId found")) /\
  (json_proto_ token !! kJwtClaimExpiration = None ->
     GetExpiration token = Err (mkStatus NOT_FOUND "No Expiration found")) /\
  (json_proto_ token !! kJwtClaimNotBefore = None ->
     GetNotBefore token = Err (mkStatus NOT_FOUND "No NotBefore found")) /\
  (json_proto_ token !! kJwtClaimIssuedAt = None ->
     GetIssuedAt token = Err (mkStatus NOT_FOUND "No IssuedAt found")).
Proof.
  unfold GetAudiences, GetJwtId, GetExpiration, GetNotBefore, GetIssuedAt.
  repeat apply conj; intros ->; reflexivity.
Qed.

(** The two accessors that report a missing claim as INVALID_ARGUMENT. *)
Lemma accessors_absent_INVALID_ARGUMENT (token : RawJwt) :
  (json_proto_ token !! kJwtClaimIssuer = None ->
     GetIssuer token = Err (mkStatus INVALID_ARGUMENT "No Issuer found")) /\
  (json_proto_ token !! kJwtClaimSubject = None ->
     GetSubject token = Err (mkStatus INVALID_ARGUMENT "No Subject found")).
Proof.
  unfold GetIssuer, GetSubject. split; intros ->; reflexivity.
Qed.

(** A registered claim stored with another kind than its accessor reads
    gives INVALID_ARGUMENT, for all seven accessors. *)
Lemma accessors_wrong_kind_INVALID_ARGUMENT (token : RawJwt) (v : Value) :
  (json_proto_ token !! kJwtClaimIssuer = Some v ->
     kind_case v <> kStringValue ->
     code (status_of (GetIssuer token)) = INVALID_ARGUMENT) /\
  (json_proto_ token !! kJwtClaimSubject = Some v ->
     kind_case v <> kStringValue ->
     code (status_of (GetSubject token)) = INVALID_ARGUMENT) /\
  (json_proto_ token !! kJwtClaimAudience = Some v ->
     kind_case v <> kListValue ->
     code (status_of (GetAudiences token)) = INVALID_ARGUMENT) /\
  (json_proto_ token !! kJwtClaimJwtId = Some v ->
     kind_case v <> kStringValue ->
     code (status_of (GetJwtId token)) = INVALID_ARGUMENT) /\
  (json_proto_ token !! kJwtClaimExpiration = Some v ->
     kind_case v <> kNumberValue ->
     code (status_of (GetExpiration token)) = INVALID_ARGUMENT) /\
  (json_proto_ token !! kJwtClaimNotBefore = Some v ->
     kind_case v <> kNumberValue ->
     code (status_of (GetNotBefore token)) = INVALID_ARGUMENT) /\
  (json_proto_ token !! kJwtClaimIssuedAt = Some v ->
     kind_case v <> kNumberValue ->
     code (status_of (GetIssuedAt token)) = INVALID_ARGUMENT).
Proof.
  unfold GetIssuer, GetSubject, GetAudiences, GetJwtId, GetExpiration,
    GetNotBefore, GetIssuedAt.
  repeat apply conj; intros -> Hk; destruct v; simpl in *;
    congruence.
Qed.

(** C6, at the claim set without claims: [GetIssuer] and [GetSubject]
    report the missing claim as INVALID_ARGUMENT, where the other five
    accessors report NOT_FOUND. *)
Theorem GetIssuer_GetSubject_absent :
  json_proto_ RawJwt_default !! kJwtClaimIssuer = None /\
  json_proto_ RawJwt_default !! kJwtClaimSubject = None /\
  GetIssuer RawJwt_default
    = Err (mkStatus INVALID_ARGUMENT "No Issuer found") /\
  GetSubject RawJwt_default
    = Err (mkStatus INVALID_ARGUMENT "No Subject found") /\
  GetAudiences RawJwt_default
    = Err (mkStatus NOT_FOUND "No Audiences found") /\
  GetJwtId RawJwt_default = Err (mkStatus NOT_FOUND "No JwtId found") /\
  GetExpiration RawJwt_default
    = Err (mkStatus NOT_FOUND "No Expiration found") /\
  GetNotBefore RawJwt_default
    = Err (mkStatus NOT_FOUND "No NotBefore found") /\
  GetIssuedAt RawJwt_default
    = Err (mkStatus NOT_FOUND "No IssuedAt found").
Proof. repeat apply conj; reflexivity. Qed.

(** ** RawJwtBuilder: the time setters *)

Lemma set_field_lookup (name : string) (value : Value) (b : RawJwtBuilder) :
  builder_json_proto_ (set_field name value b) !! name = Some value.
Proof. unfold set_field. simpl. apply lookup_insert_eq. Qed.

Lemma set_field_lookup_ne (name other : string) (value : Value)
    (b : RawJwtBuilder) :
  name <> other ->
  builder_json_proto_ (set_field name value b) !! other
    = builder_json_proto_ b !! other.
Proof. intros Hne. unfold set_field. simpl. apply lookup_insert_ne, Hne. Qed.

(** Within the range of a 32-bit [int], the three setters store the floor
    of the time in seconds, as a number that converts back to it. *)
Lemma time_setters_in_int_range (t : Time) (b : RawJwtBuilder) :
  Time_wf t ->
  - 2 ^ 31 <= floor_seconds t < 2 ^ 31 ->
  let seconds := NumberValue (int_to_double (floor_seconds t)) in
  double_to_int64 (int_to_double (floor_seconds t)) = Some (floor_seconds t) /\
  builder_json_proto_ (SetExpiration t b) !! kJwtClaimExpiration
    = Some seconds /\
  builder_json_proto_ (SetNotBefore t b) !! kJwtClaimNotBefore
    = Some seconds /\
  builder_json_proto_ (SetIssuedAt t b) !! kJwtClaimIssuedAt = Some seconds.
Proof.
  intros Hwf Hrange seconds. subst seconds.
  unfold SetExpiration, SetNotBefore, SetIssuedAt.
  rewrite !set_field_lookup, (ToUnixSeconds_floor t Hwf).
  rewrite (static_cast_int_in_range _ Hrange).
  split; [|repeat split].
  apply double_to_int64_int_to_double.
  assert (2 ^ 31 < 2 ^ 53) by reflexivity. lia.
Qed.

(** C7 (as amended): for a time [t] before the Unix epoch, down to the
    least 32-bit [int], each of [SetExpiration], [SetNotBefore] and
    [SetIssuedAt] stores the negative number of seconds [floor(t)] under its
    claim name, and [Build] succeeds on the result: the setters reject
    nothing. *)
Theorem time_setters_negative (t : Time) (b : RawJwtBuilder) :
  Time_wf t ->
  - 2 ^ 31 <= floor_seconds t < 0 ->
  let seconds := NumberValue (int_to_double (floor_seconds t)) in
  double_to_int64 (int_to_double (floor_seconds t)) = Some (floor_seconds t) /\
  builder_json_proto_ (SetExpiration t b) !! kJwtClaimExpiration
    = Some seconds /\
  builder_json_proto_ (SetNotBefore t b) !! kJwtClaimNotBefore
    = Some seconds /\
  builder_json_proto_ (SetIssuedAt t b) !! kJwtClaimIssuedAt = Some seconds /\
  is_ok (Build (SetExpiration t b)) = true /\
  is_ok (Build (SetNotBefore t b)) = true /\
  is_ok (Build (SetIssuedAt t b)) = true.
Proof.
  intros Hwf Hrange seconds.
  destruct (time_setters_in_int_range t b Hwf) as (H1 & H2 & H3 & H4);
    [lia|].
  repeat split; assumption.
Qed.

(** C8, at the first second that does not fit a 32-bit [int]
    (2038-01-19 03:14:08 UTC): [floor(t)] is 2147483648, and
    [SetExpiration], [SetNotBefore] and [SetIssuedAt] store the number
    -2147483648. *)
Theorem time_setters_2038 :
  let t := FromUnixSeconds 2147483648 in
  Time_wf t /\
  floor_seconds t = 2147483648 /\
  double_to_int64 (int_to_double (-2147483648)) = Some (-2147483648) /\
  builder_json_proto_ (SetExpiration t RawJwtBuilder_new)
    !! kJwtClaimExpiration
    = Some (NumberValue (int_to_double (-2147483648))) /\
  builder_json_proto_ (SetNotBefore t RawJwtBuilder_new)
    !! kJwtClaimNotBefore
    = Some (NumberValue (int_to_double (-2147483648))) /\
  builder_json_proto_ (SetIssuedAt t RawJwtBuilder_new)
    !! kJwtClaimIssuedAt
    = Some (NumberValue (int_to_double (-2147483648))).
Proof.
  cbv zeta. unfold Time_wf, ticks_per_second. simpl rep_hi. simpl rep_lo.
  split; [lia|]. repeat split.
Qed.

(** ** RawJwtBuilder: custom claims *)

Lemma ValidatePayloadName_registered (name : string) :
  name ∈ registered_claim_names ->
  ok (ValidatePayloadName name) = false /\
  code (ValidatePayloadName name) = INVALID_ARGUMENT.
Proof.
  intros Hreg. apply IsRegisteredClaimName_spec in Hreg.
  unfold ValidatePayloadName. rewrite Hreg. split; reflexivity.
Qed.

Lemma ValidatePayloadName_custom (name : string) :
  name ∉ registered_claim_names -> ValidatePayloadName name = OkStatus.
Proof.
  intros Hreg. apply IsRegisteredClaimName_false in Hreg.
  unfold ValidatePayloadName. rewrite Hreg. reflexivity.
Qed.

(** C9 (as amended): the six adders of custom claims decide on the name by
    [ValidatePayloadName] alone.  A registered name makes each of them
    return INVALID_ARGUMENT and leave the builder as it was; every other
    name, the empty one included, makes each of them store the claim and
    return OK, the two JSON adders whenever their text parses. *)
Theorem custom_claim_adders {json_util : JsonUtil} (name : string)
    (b : RawJwtBuilder) :
  ((name ∈ registered_claim_names) /\
   code (ValidatePayloadName name) = INVALID_ARGUMENT /\
   AddNullClaim name b = (ValidatePayloadName name, b) /\
   (forall v, AddBooleanClaim name v b = (ValidatePayloadName name, b)) /\
   (forall v, AddStringClaim name v b = (ValidatePayloadName name, b)) /\
   (forall v, AddNumberClaim name v b = (ValidatePayloadName name, b)) /\
   (forall text,
      AddJsonObjectClaim name text b = (ValidatePayloadName name, b)) /\
   (forall text,
      AddJsonArrayClaim name text b = (ValidatePayloadName name, b)))
  \/
  ((name ∉ registered_claim_names) /\
   AddNullClaim name b = (OkStatus, set_field name NullValue b) /\
   (forall v,
      AddBooleanClaim name v b = (OkStatus, set_field name (BoolValue v) b)) /\
   (forall v,
      AddStringClaim name v b
        = (OkStatus, set_field name (StringValue v) b)) /\
   (forall v,
      AddNumberClaim name v b
        = (OkStatus, set_field name (NumberValue v) b)) /\
   (forall text proto, JsonStringToProtoStruct text = Ok proto ->
      AddJsonObjectClaim name text b
        = (OkStatus, set_field name (StructValue proto) b)) /\
   (forall text values, JsonStringToProtoList text = Ok values ->
      AddJsonArrayClaim name text b
        = (OkStatus, set_field name (ListValue values) b))).
Proof.
  destruct (IsRegisteredClaimName name) eqn:Hreg.
  - left. apply IsRegisteredClaimName_spec in Hreg.
    destruct (ValidatePayloadName_registered name Hreg) as [Hok Hcode].
    unfold AddNullClaim, AddBooleanClaim, AddStringClaim, AddNumberClaim,
      AddJsonObjectClaim, AddJsonArrayClaim.
    cbn zeta. rewrite Hok. cbn [negb]. repeat split; assumption.
  - right. apply IsRegisteredClaimName_false in Hreg.
    pose proof (ValidatePayloadName_custom name Hreg) as Hok.
    unfold AddNullClaim, AddBooleanClaim, AddStringClaim, AddNumberClaim,
      AddJsonObjectClaim, AddJsonArrayClaim.
    cbn zeta. rewrite Hok. cbn [ok code OkStatus negb].
    repeat split; try assumption.
    + intros text proto ->. reflexivity.
    + intros text values ->. reflexivity.
Qed.

(** ** RawJwtBuilder: Build *)

(** C10: [Build] succeeds on every builder, and the claim set it returns
    holds the JSON object the builder has accumulated. *)
Theorem Build_succeeds (b : RawJwtBuilder) :
  is_ok (Build b) = true /\
  Build b = Ok (mkRawJwt (builder_json_proto_ b)).
Proof. split; reflexivity. Qed.

(** ** The instances keep the contracts *)

Lemma list_ind3 {A : Type} (P : list A -> Prop) :
  P [] -> (forall a, P [a]) -> (forall a b, P [a; b]) ->
  (forall a b c r, P r -> P (a :: b :: c :: r)) ->
  forall l, P l.
Proof.
  intros H0 H1 H2 H3 l.
  assert (P l /\ (forall a, P (a :: l)) /\ (forall a b, P (a :: b :: l)))
    as [Hl _].
  { induction l as [|x l (IH0 & IH1 & IH2)]; repeat split; auto. }
  exact Hl.
Qed.

Lemma sextet_arith (a b c : N) :
  (a < 256 -> b < 256 -> c < 256 ->
   (a / 4 < 64 /\ (a mod 4) * 16 + b / 16 < 64 /\
    (b mod 16) * 4 + c / 64 < 64 /\ c mod 64 < 64) /\
   a / 4 * 4 + ((a mod 4) * 16 + b / 16) / 16 = a /\
   ((a mod 4) * 16 + b / 16) mod 16 * 16 + ((b mod 16) * 4 + c / 64) / 4 = b /\
   ((b mod 16) * 4 + c / 64) mod 4 * 64 + c mod 64 = c)%N.
Proof.
  intros Ha Hb Hc.
  repeat split; zify; Z.to_euclidean_division_equations; lia.
Qed.

Lemma sextets_of_bytes_bounded (l : list N) :
  Forall (fun b => (b < 256)%N) l ->
  Forall (fun x => (x < 64)%N) (sextets_of_bytes l).
Proof.
  induction l as [|a|a b|a b c r IH] using list_ind3; intros Hl;
    cbn [sextets_of_bytes].
  - constructor.
  - inversion_clear Hl as [|? ? Ha _].
    destruct (sextet_arith a 0 0 Ha) as [(? & ? & _) _]; [lia..|].
    rewrite N.add_0_r in *. repeat constructor; assumption.
  - inversion_clear Hl as [|? ? Ha Hl']. inversion_clear Hl' as [|? ? Hb _].
    destruct (sextet_arith a b 0 Ha Hb) as [(? & ? & ? & _) _]; [lia|].
    rewrite N.add_0_r in *. repeat constructor; assumption.
  - inversion_clear Hl as [|? ? Ha Hl']. inversion_clear Hl' as [|? ? Hb Hl].
    inversion_clear Hl as [|? ? Hc Hr].
    destruct (sextet_arith a b c Ha Hb Hc) as [(? & ? & ? & ?) _].
    repeat constructor; auto.
Qed.

Lemma bytes_of_sextets_of_bytes (l : list N) :
  Forall (fun b => (b < 256)%N) l ->
  bytes_of_sextets (sextets_of_bytes l) = Some l.
Proof.
  induction l as [|a|a b|a b c r IH] using list_ind3; intros Hl;
    cbn [sextets_of_bytes bytes_of_sextets].
  - reflexivity.
  - inversion_clear Hl as [|? ? Ha _].
    destruct (sextet_arith a 0 0 Ha) as [_ (E & _)]; [lia..|].
    rewrite N.add_0_r in E. rewrite E. reflexivity.
  - inversion_clear Hl as [|? ? Ha Hl']. inversion_clear Hl' as [|? ? Hb _].
    destruct (sextet_arith a b 0 Ha Hb) as [_ (E1 & E2 & _)]; [lia|].
    rewrite N.add_0_r in E2. rewrite E1, E2. reflexivity.
  - inversion_clear Hl as [|? ? Ha Hl']. inversion_clear Hl' as [|? ? Hb Hl].
    inversion_clear Hl as [|? ? Hc Hr].
    destruct (sextet_arith a b c Ha Hb Hc) as [_ (E1 & E2 & E3)].
    rewrite (IH Hr). cbn [mbind option_bind]. rewrite E1, E2, E3.
    reflexivity.
Qed.

Lemma char_to_sextet_to_char (n : N) :
  (n < 64)%N -> char_to_sextet (sextet_to_char n) = Some n.
Proof.
  intros Hn. destruct n as [|p]; [reflexivity|].
  do 6 (destruct p as [p|p|]; try reflexivity); lia.
Qed.

Lemma get_count_char (s : string) (k : nat) (c : ascii) :
  String.get k s = Some c -> (0 < count_char s c)%nat.
Proof.
  revert k. induction s as [|a r IH]; intros k Hk; [discriminate|].
  destruct k as [|k]; simpl in *.
  - injection Hk as ->. rewrite Ascii.eqb_refl. lia.
  - specialize (IH k Hk). lia.
Qed.

Lemma sextet_to_char_in_alphabet (n : N) :
  (0 < count_char base64url_alphabet (sextet_to_char n))%nat.
Proof.
  unfold sextet_to_char.
  destruct (String.get (N.to_nat n) base64url_alphabet) as [c|] eqn:Hget.
  - exact (get_count_char _ _ _ Hget).
  - vm_compute. lia.
Qed.

(** The encoding holds no character from outside the alphabet. *)
Lemma base64url_encode_alphabet (s : string) (c : ascii) :
  count_char base64url_alphabet c = O ->
  count_char (base64url_encode s) c = O.
Proof.
  intros Hc. unfold base64url_encode.
  induction (sextets_of_bytes (bytes_of_string s)) as [|x l IH]; simpl;
    [reflexivity|].
  destruct (Ascii.eqb (sextet_to_char x) c) eqn:Hx; [|exact IH].
  apply Ascii.eqb_eq in Hx. subst c.
  pose proof (sextet_to_char_in_alphabet x). lia.
Qed.

Lemma base64url_encode_no_dot (s : string) : no_dot (base64url_encode s).
Proof. apply base64url_encode_alphabet. reflexivity. Qed.

Lemma strip_padding_no_pad (s : string) :
  count_char s pad = O -> strip_padding s = s.
Proof.
  induction s as [|a r IH]; simpl; [reflexivity|].
  destruct (Ascii.eqb a pad); simpl; [discriminate|].
  intros Hr. rewrite (IH Hr). destruct r; reflexivity.
Qed.

Lemma string_of_bytes_of_string (s : string) :
  string_of_bytes (bytes_of_string s) = s.
Proof.
  unfold string_of_bytes, bytes_of_string.
  induction s as [|a r IH]; cbn [list_ascii_of_string fmap list_fmap
    string_of_list_ascii]; [reflexivity|].
  rewrite ascii_N_embedding. f_equal. exact IH.
Qed.

Lemma bytes_of_string_bounded (s : string) :
  Forall (fun b => (b < 256)%N) (bytes_of_string s).
Proof.
  unfold bytes_of_string. apply Forall_fmap, Forall_forall.
  intros a _. simpl. apply N_ascii_bounded.
Qed.

(** Unpadded base64url decodes what it encoded. *)
Lemma base64url_decode_encode (s : string) :
  base64url_decode (base64url_encode s) = Some s.
Proof.
  unfold base64url_decode.
  rewrite strip_padding_no_pad
    by (apply base64url_encode_alphabet; reflexivity).
  unfold base64url_encode.
  rewrite list_ascii_of_string_of_list_ascii.
  rewrite mapM_fmap_Forall_Some.
  - cbn [mbind option_bind].
    rewrite bytes_of_sextets_of_bytes by apply bytes_of_string_bounded.
    simpl. rewrite string_of_bytes_of_string. reflexivity.
  - eapply Forall_impl; [apply sextets_of_bytes_bounded,
                          bytes_of_string_bounded|].
    intros x Hx. apply char_to_sextet_to_char, Hx.
Qed.

Lemma base64url_format_laws (alg : string) :
  @JwtFormat_laws base64url_format alg.
Proof.
  constructor; simpl.
  - apply base64url_encode_no_dot.
  - apply base64url_encode_no_dot.
  - apply base64url_encode_no_dot.
  - rewrite String.eqb_refl. reflexivity.
  - apply base64url_decode_encode.
  - apply base64url_decode_encode.
Qed.

Lemma checksum_mac_verifies_computed (key : N) :
  Mac_verifies_computed (checksum_mac key).
Proof.
  intros data tag Htag. simpl in *. injection Htag as <-.
  rewrite String.eqb_refl. reflexivity.
Qed.







(** ** The theorems at concrete inputs *)

Lemma joe_round_trips : @Json_round_trips flat_json joe.
Proof.
  intros text Htext. vm_compute in Htext. injection Htext as <-.
  vm_compute. reflexivity.
Qed.

(** C1 on the token with [iss = "joe"], under the checksum MAC. *)
Lemma VerifyMacAndDecode_ComputeMacAndEncode_joe :
  @JwtFormat_laws base64url_format (algorithm_ checksum_jwt_mac) /\
  Mac_verifies_computed (mac_ checksum_jwt_mac) /\
  @Json_round_trips flat_json joe /\
  ok (Validate any_validator joe) = true /\
  @ComputeMacAndEncode flat_json base64url_format checksum_jwt_mac joe
    = Ok "eyJhbGciOiJIUzI1NiJ9.eyJpc3MiOiJqb2UifQ.0A" /\
  @VerifyMacAndDecode flat_json base64url_format checksum_jwt_mac
    "eyJhbGciOiJIUzI1NiJ9.eyJpc3MiOiJqb2UifQ.0A" any_validator
    = Ok (mkVerifiedJwt joe).
Proof.
  assert (@ComputeMacAndEncode flat_json base64url_format checksum_jwt_mac joe
          = Ok "eyJhbGciOiJIUzI1NiJ9.eyJpc3MiOiJqb2UifQ.0A") as Hcompute
    by (vm_compute; reflexivity).
  repeat apply conj.
  - apply base64url_format_laws.
  - apply checksum_mac_verifies_computed.
  - apply joe_round_trips.
  - reflexivity.
  - exact Hcompute.
  - apply (@VerifyMacAndDecode_ComputeMacAndEncode flat_json base64url_format
             checksum_jwt_mac joe any_validator _
             (base64url_format_laws _) (checksum_mac_verifies_computed 7)
             joe_round_trips eq_refl Hcompute).
Defined.

(** C3 on a token whose header segment is not base64url and whose tag is
    the byte 0: the answer is that of the MAC. *)
Lemma VerifyMacAndDecode_mac_error_first_bad_header :
  no_dot "AA" /\
  @DecodeSignature base64url_format "AA" = Some (string_of_bytes [0%N]) /\
  ok (VerifyMac (mac_ checksum_jwt_mac) (string_of_bytes [0%N])
        "eyJhbGciOiJIUzI1NiJ9?.e30") = false /\
  @VerifyMacAndDecode flat_json base64url_format checksum_jwt_mac
    ("eyJhbGciOiJIUzI1NiJ9?.e30" +:+ "." +:+ "AA") any_validator
    = Err (mkStatus INVALID_ARGUMENT "verification failed").
Proof.
  split; [reflexivity|]. split; [vm_compute; reflexivity|].
  split; [vm_compute; reflexivity|].
  apply (@VerifyMacAndDecode_mac_error_first flat_json base64url_format
           checksum_jwt_mac any_validator "eyJhbGciOiJIUzI1NiJ9?.e30" "AA"
           (string_of_bytes [0%N]));
    vm_compute; reflexivity.
Defined.

(** C4 as stated fails on [a.b.c.AA]: the signing input [a.b.c] has two
    dots, the tag decodes to the byte 0, which is not the MAC of [a.b.c],
    and the answer is the status of the MAC, not one of the statuses for a
    malformed token. *)
Lemma VerifyMacAndDecode_two_dots_bad_mac :
  find_last_of "a.b.c.AA" dot = Some 5%nat /\
  substr "a.b.c.AA" 0 (Some 5%nat) = "a.b.c" /\
  count_char "a.b.c" dot = 2%nat /\
  @VerifyMacAndDecode flat_json base64url_format checksum_jwt_mac
    "a.b.c.AA" any_validator
    = Err (VerifyMac (mac_ checksum_jwt_mac) (string_of_bytes [0%N]) "a.b.c") /\
  VerifyMac (mac_ checksum_jwt_mac) (string_of_bytes [0%N]) "a.b.c"
    = mkStatus INVALID_ARGUMENT "verification failed" /\
  ~ MalformedToken (mkStatus INVALID_ARGUMENT "verification failed").
Proof.
  repeat apply conj; try (vm_compute; reflexivity).
  unfold MalformedToken. rewrite !elem_of_cons, elem_of_nil.
  intros [Hx|[Hx|[Hx|[Hx|[]]]]]; discriminate Hx.
Qed.

(** C4 (as amended) on the tokens of the tests: no dot at all, a tag that
    does not decode, and a verified tag over a signing input with two
    dots; and on two tokens with a verified tag and an empty payload or
    header segment, which the JSON parser and the header validation
    refuse. *)
Lemma VerifyMacAndDecode_split_tokens :
  @VerifyMacAndDecode flat_json base64url_format checksum_jwt_mac
    "eyJhbGciOiJIUzI1NiJ9" any_validator
    = Err (mkStatus INVALID_ARGUMENT "invalid token") /\
  @VerifyMacAndDecode flat_json base64url_format checksum_jwt_mac
    ("eyJhbGciOiJIUzI1NiJ9.e30" +:+ "." +:+ "abc?") any_validator
    = Err (mkStatus INVALID_ARGUMENT "invalid JWT MAC") /\
  @VerifyMacAndDecode flat_json base64url_format checksum_jwt_mac
    ("a.b.c" +:+ "." +:+ "Iw") any_validator
    = Err (mkStatus INVALID_ARGUMENT
        "only tokens in JWS compact serialization format are supported") /\
  ok (@ValidateHeader base64url_format EmptyString
        (algorithm_ checksum_jwt_mac)) = false /\
  (forall json_payload,
     @DecodePayload base64url_format EmptyString = Some json_payload ->
     is_ok (@FromString flat_json json_payload) = false) /\
  @VerifyMacAndDecode flat_json base64url_format checksum_jwt_mac
    (("eyJhbGciOiJIUzI1NiJ9" +:+ "." +:+ EmptyString) +:+ "." +:+ "Og")
    any_validator
    = Err (mkStatus INVALID_ARGUMENT "invalid JSON") /\
  is_ok (@VerifyMacAndDecode flat_json base64url_format checksum_jwt_mac
           (("eyJhbGciOiJIUzI1NiJ9" +:+ "." +:+ EmptyString) +:+ "." +:+ "Og")
           any_validator) = false /\
  is_ok (@VerifyMacAndDecode flat_json base64url_format checksum_jwt_mac
           ((EmptyString +:+ "." +:+ "e30") +:+ "." +:+ "Gw")
           any_validator) = false.
Proof.
  destruct (@VerifyMacAndDecode_split flat_json base64url_format
              checksum_jwt_mac any_validator)
    as (Hnone & _ & Htag & _ & Hdots & Hpieces & Hempty).
  assert (ok (@ValidateHeader base64url_format EmptyString
                (algorithm_ checksum_jwt_mac)) = false) as Hheader
    by reflexivity.
  assert (forall json_payload,
            @DecodePayload base64url_format EmptyString = Some json_payload ->
            is_ok (@FromString flat_json json_payload) = false) as Hpayload.
  { intros json_payload Hdec. vm_compute in Hdec. injection Hdec as <-.
    reflexivity. }
  repeat apply conj.
  - apply Hnone. reflexivity.
  - apply Htag; vm_compute; reflexivity.
  - apply (Hdots "a.b.c" "Iw" "#"); try (vm_compute; reflexivity).
    vm_compute. discriminate.
  - exact Hheader.
  - exact Hpayload.
  - assert (@DecodeSignature base64url_format "Og"
            = Some (checksum 7 "eyJhbGciOiJIUzI1NiJ9.")) as Hdec
      by (vm_compute; reflexivity).
    assert (ok (VerifyMac (mac_ checksum_jwt_mac)
                  (checksum 7 "eyJhbGciOiJIUzI1NiJ9.")
                  ("eyJhbGciOiJIUzI1NiJ9" +:+ "." +:+ EmptyString)) = true)
      as Hver by (vm_compute; reflexivity).
    destruct (Hpieces "eyJhbGciOiJIUzI1NiJ9" EmptyString "Og"
                (checksum 7 "eyJhbGciOiJIUzI1NiJ9.")
                eq_refl eq_refl eq_refl Hdec Hver) as (_ & _ & Hparser).
    apply (Hparser eq_refl EmptyString); vm_compute; reflexivity.
  - apply (Hempty Hheader Hpayload "eyJhbGciOiJIUzI1NiJ9" EmptyString "Og");
      try reflexivity.
    right. reflexivity.
  - apply (Hempty Hheader Hpayload EmptyString "e30" "Gw"); try reflexivity.
    left. reflexivity.
Defined.

(** C5 as stated fails on a claim set whose [aud] is a single string. *)
Lemma GetAudiences_single_string :
  @FromString flat_json (json_member "aud" "a") = Ok single_audience /\
  json_proto_ single_audience !! kJwtClaimAudience = Some (StringValue "a") /\
  GetAudiences single_audience
    = Err (mkStatus INVALID_ARGUMENT "Audiences is not a list").
Proof. repeat apply conj; vm_compute; reflexivity. Qed.

(** C5 (as amended) on the claim set built with two calls of
    [AddAudience]. *)
Lemma GetAudiences_two_audiences :
  json_proto_ two_audiences !! kJwtClaimAudience
    = Some (ListValue [StringValue "a"; StringValue "b"]) /\
  GetAudiences two_audiences = Ok ["a"; "b"].
Proof.
  assert (json_proto_ two_audiences !! kJwtClaimAudience
          = Some (ListValue [StringValue "a"; StringValue "b"])) as Haud
    by (vm_compute; reflexivity).
  split; [exact Haud|].
  apply (proj1 (GetAudiences_stored two_audiences _ Haud) ["a"; "b"]).
  reflexivity.
Defined.

(** C7 as stated fails one second before the epoch: the three setters
    store the number -1 under a claim name that was not there. *)
Lemma time_setters_minus_one :
  ToUnixSeconds (FromUnixSeconds (-1)) = -1 /\
  builder_json_proto_ RawJwtBuilder_new !! kJwtClaimExpiration = None /\
  builder_json_proto_ (SetExpiration (FromUnixSeconds (-1)) RawJwtBuilder_new)
    !! kJwtClaimExpiration = Some (NumberValue (int_to_double (-1))) /\
  builder_json_proto_ (SetNotBefore (FromUnixSeconds (-1)) RawJwtBuilder_new)
    !! kJwtClaimNotBefore = Some (NumberValue (int_to_double (-1))) /\
  builder_json_proto_ (SetIssuedAt (FromUnixSeconds (-1)) RawJwtBuilder_new)
    !! kJwtClaimIssuedAt = Some (NumberValue (int_to_double (-1))) /\
  double_to_int64 (int_to_double (-1)) = Some (-1).
Proof. repeat apply conj; vm_compute; reflexivity. Qed.

(** C7 (as amended) one second before the epoch. *)
Lemma time_setters_negative_minus_one :
  Time_wf (FromUnixSeconds (-1)) /\
  - 2 ^ 31 <= floor_seconds (FromUnixSeconds (-1)) < 0 /\
  builder_json_proto_ (SetExpiration (FromUnixSeconds (-1)) RawJwtBuilder_new)
    !! kJwtClaimExpiration
    = Some (NumberValue (int_to_double (floor_seconds (FromUnixSeconds (-1))))).
Proof.
  assert (Time_wf (FromUnixSeconds (-1))) as Hwf
    by (unfold Time_wf, ticks_per_second; simpl; lia).
  assert (- 2 ^ 31 <= floor_seconds (FromUnixSeconds (-1)) < 0) as Hrange
    by (vm_compute; split; [discriminate | reflexivity]).
  split; [exact Hwf|]. split; [exact Hrange|].
  exact (proj1 (proj2 (time_setters_negative (FromUnixSeconds (-1))
                         RawJwtBuilder_new Hwf Hrange))).
Defined.

(** C9 as stated fails on the empty name: every adder accepts it and
    stores the claim under it. *)
Lemma custom_claim_adders_empty_name :
  fst (AddNullClaim "" RawJwtBuilder_new) = OkStatus /\
  fst (AddBooleanClaim "" true RawJwtBuilder_new) = OkStatus /\
  fst (AddStringClaim "" "v" RawJwtBuilder_new) = OkStatus /\
  fst (AddNumberClaim "" (int_to_double 1) RawJwtBuilder_new) = OkStatus /\
  fst (@AddJsonObjectClaim flat_json "" "{}" RawJwtBuilder_new) = OkStatus /\
  fst (@AddJsonArrayClaim flat_json "" "[]" RawJwtBuilder_new) = OkStatus /\
  builder_json_proto_ (snd (AddStringClaim "" "v" RawJwtBuilder_new)) !! ""
    = Some (StringValue "v").
Proof. repeat apply conj; vm_compute; reflexivity. Qed.

(** C9 (as amended) on the registered name [sub] and the custom name
    [scope]. *)
Lemma custom_claim_adders_sub_scope :
  code (fst (AddStringClaim "sub" "x" RawJwtBuilder_new)) = INVALID_ARGUMENT /\
  snd (AddStringClaim "sub" "x" RawJwtBuilder_new) = RawJwtBuilder_new /\
  @AddJsonObjectClaim flat_json "scope" "{}" RawJwtBuilder_new
    = (OkStatus, set_field "scope" (StructValue ∅) RawJwtBuilder_new).
Proof.
  destruct (@custom_claim_adders flat_json "sub" RawJwtBuilder_new)
    as [(_ & Hcode & _ & _ & Hsub & _) | (Hsub & _)];
    [|exfalso; apply Hsub; vm_compute; set_solver].
  destruct (@custom_claim_adders flat_json "scope" RawJwtBuilder_new)
    as [(Hscope & _) | (_ & _ & _ & _ & _ & Hscope & _)].
  - exfalso. apply IsRegisteredClaimName_spec in Hscope. discriminate Hscope.
  - rewrite (Hsub "x"). cbn [fst snd].
    split; [exact Hcode|]. split; [reflexivity|].
    apply Hscope. reflexivity.
Defined.

(** The tokens of the test ValidateInvalidTokens are rejected, and so is a
    token whose tag was computed under another key. *)
Example VerifyMacAndDecode_invalid_tokens :
  Forall
    (fun compact =>
       is_ok (@VerifyMacAndDecode flat_json base64url_format checksum_jwt_mac
                compact any_validator) = false)
    ["eyJhbGciOiJIUzI1NiJ9.e30.abc."; "eyJhbGciOiJIUzI1NiJ9?.e30.abc";
     "eyJhbGciOiJIUzI1NiJ9.e30?.abc"; "eyJhbGciOiJIUzI1NiJ9.e30.abc?";
     "eyJhbGciOiJIUzI1NiJ9.e30"; "eyJhbGciOiJIUzI1NiJ9.e30.CQ"].
Proof. repeat constructor. Qed.


(** The contract on the decoder is not a consequence of the other laws.
    The decoder of section 4.1 as modelled above keeps every law of
    [JwtFormat_laws] and drops the bits of the last character that fill no
    byte: under it the one-byte tag of [eyJhbGciOiJIUzI1NiJ9.e30.CA]
    decodes from [CA] and from [CC] alike, and the token with the last
    character changed is accepted. *)
Example VerifyMacAndDecode_decoder_not_canonical :
  @ComputeMacAndEncode flat_json base64url_format checksum_jwt_mac
    RawJwt_default = Ok "eyJhbGciOiJIUzI1NiJ9.e30.CA" /\
  replace_byte 26 "C" "eyJhbGciOiJIUzI1NiJ9.e30.CA"
    = "eyJhbGciOiJIUzI1NiJ9.e30.CC" /\
  base64url_decode "CA" = Some (string_of_bytes [8%N]) /\
  base64url_decode "CC" = Some (string_of_bytes [8%N]) /\
  base64url_decode_canonical "CC" = None /\
  @VerifyMacAndDecode flat_json base64url_format checksum_jwt_mac
    (replace_byte 26 "C" "eyJhbGciOiJIUzI1NiJ9.e30.CA") any_validator
    = Ok (mkVerifiedJwt RawJwt_default) /\
  @VerifyMacAndDecode flat_json base64url_canonical_format checksum_jwt_mac
    (replace_byte 26 "C" "eyJhbGciOiJIUzI1NiJ9.e30.CA") any_validator
    = Err (mkStatus INVALID_ARGUMENT "invalid JWT MAC").
Proof. repeat apply conj; vm_compute; reflexivity. Qed.

(** * Further properties *)

(** ** RawJwtBuilder and RawJwt: what is set is read back *)

Lemma Build_built (b : RawJwtBuilder) : Build b = Ok (built b).
Proof. reflexivity. Qed.

(** X1: what [SetIssuer], [SetSubject] and [SetJwtId] store on any builder
    is what [GetIssuer], [GetSubject] and [GetJwtId] return on the claim set
    built from it, whatever was stored before. *)
Theorem string_setters_round_trip (s : string) (b : RawJwtBuilder) :
  (Build (SetIssuer s b) = Ok (built (SetIssuer s b)) /\
   HasIssuer (built (SetIssuer s b)) = true /\
   GetIssuer (built (SetIssuer s b)) = Ok s) /\
  (Build (SetSubject s b) = Ok (built (SetSubject s b)) /\
   HasSubject (built (SetSubject s b)) = true /\
   GetSubject (built (SetSubject s b)) = Ok s) /\
  (Build (SetJwtId s b) = Ok (built (SetJwtId s b)) /\
   HasJwtId (built (SetJwtId s b)) = true /\
   GetJwtId (built (SetJwtId s b)) = Ok s).
Proof.
  unfold HasIssuer, GetIssuer, HasSubject, GetSubject, HasJwtId, GetJwtId,
    contains, built, SetIssuer, SetSubject, SetJwtId.
  cbn [json_proto_]. rewrite !set_field_lookup.
  repeat split.
Qed.

(** A time setter stores a number that the time getters read back. *)
Lemma time_number_read_back (z : Z) :
  - 2 ^ 31 <= z < 2 ^ 31 ->
  FromUnixSeconds <$> double_to_int64 (int_to_double z)
    = Some (FromUnixSeconds z).
Proof.
  intros Hz. rewrite double_to_int64_int_to_double; [reflexivity|].
  assert (2 ^ 31 < 2 ^ 53) by reflexivity. lia.
Qed.

(** X2: a time within the range of a 32-bit count of seconds that is set
    with [SetExpiration], [SetNotBefore] or [SetIssuedAt] is read back by
    the matching getter cut down to whole seconds: the result is the time
    [floor(t)] seconds after the epoch, and the fraction of a second is
    gone. *)
Theorem time_setters_round_trip (t : Time) (b : RawJwtBuilder) :
  Time_wf t ->
  - 2 ^ 31 <= floor_seconds t < 2 ^ 31 ->
  GetExpiration (built (SetExpiration t b))
    = Ok (Some (FromUnixSeconds (floor_seconds t))) /\
  GetNotBefore (built (SetNotBefore t b))
    = Ok (Some (FromUnixSeconds (floor_seconds t))) /\
  GetIssuedAt (built (SetIssuedAt t b))
    = Ok (Some (FromUnixSeconds (floor_seconds t))) /\
  (rep_lo t <> 0 ->
   GetExpiration (built (SetExpiration t b)) <> Ok (Some t)).
Proof.
  intros Hwf Hrange.
  unfold GetExpiration, GetNotBefore, GetIssuedAt, built, SetExpiration,
    SetNotBefore, SetIssuedAt.
  cbn [json_proto_]. rewrite !set_field_lookup.
  rewrite (ToUnixSeconds_floor t Hwf), (static_cast_int_in_range _ Hrange).
  rewrite (time_number_read_back _ Hrange).
  repeat split. intros Hlo Heq. injection Heq as Heq.
  destruct t as [hi lo]. unfold FromUnixSeconds in Heq.
  injection Heq as _ Heq. simpl in Hlo. congruence.
Qed.

(** The audiences [auds] added one after the other. *)
Lemma AddAudience_fold (auds prev : list string) (b : RawJwtBuilder) :
  builder_json_proto_ b !! kJwtClaimAudience
    = Some (ListValue (StringValue <$> prev)) ->
  builder_json_proto_ (foldl (fun b a => AddAudience a b) b auds)
    !! kJwtClaimAudience
    = Some (ListValue (StringValue <$> (prev ++ auds)%list)).
Proof.
  revert prev b. induction auds as [|a auds IH]; intros prev b Hb; simpl.
  - rewrite app_nil_r. exact Hb.
  - rewrite (IH (prev ++ [a])%list).
    + rewrite <- app_assoc. reflexivity.
    + unfold AddAudience. cbn [builder_json_proto_]. rewrite Hb.
      rewrite lookup_insert_eq, fmap_app. reflexivity.
Qed.

(** X3: on a builder without audiences, any number of calls of
    [AddAudience] gives a claim set whose [GetAudiences] returns the
    audiences in the order of the calls, repetitions included; without any
    call the claim is missing and [GetAudiences] reports NOT_FOUND. *)
Theorem AddAudience_sequence (auds : list string) (b : RawJwtBuilder) :
  builder_json_proto_ b !! kJwtClaimAudience = None ->
  let token := built (foldl (fun b a => AddAudience a b) b auds) in
  (auds = [] ->
   HasAudiences token = false /\
   GetAudiences token = Err (mkStatus NOT_FOUND "No Audiences found")) /\
  (auds <> [] -> HasAudiences token = true /\ GetAudiences token = Ok auds).
Proof.
  intros Hb token. subst token. split.
  - intros ->. unfold HasAudiences, GetAudiences, contains, built. simpl.
    rewrite Hb. split; reflexivity.
  - destruct auds as [|a auds]; [congruence|]. intros _.
    unfold HasAudiences, GetAudiences, contains, built.
    cbn [json_proto_ foldl].
    rewrite (AddAudience_fold auds [a]).
    + split; [reflexivity|].
      exact (GetAudiences_loop_strings (a :: auds) []).
    + unfold AddAudience. cbn [builder_json_proto_]. rewrite Hb.
      apply lookup_insert_eq.
Qed.

(** ** RawJwt: custom claims *)

Lemma unregistered_name_ne (name r : string) :
  name ∉ registered_claim_names -> r ∈ registered_claim_names -> r <> name.
Proof. intros Hname Hr ->. exact (Hname Hr). Qed.

(** X4: under a name that is not registered, the value stored by
    [AddStringClaim], [AddBooleanClaim] or [AddNumberClaim] is the value the
    getter of the same kind returns, and [AddNullClaim] makes
    [IsNullClaim] true; each adder answers OK. *)
Theorem custom_claims_round_trip (name : string) (b : RawJwtBuilder) :
  name ∉ registered_claim_names ->
  (forall v,
     fst (AddStringClaim name v b) = OkStatus /\
     HasStringClaim (built (snd (AddStringClaim name v b))) name = true /\
     GetStringClaim (built (snd (AddStringClaim name v b))) name = Ok v) /\
  (forall v,
     fst (AddBooleanClaim name v b) = OkStatus /\
     HasBooleanClaim (built (snd (AddBooleanClaim name v b))) name = true /\
     GetBooleanClaim (built (snd (AddBooleanClaim name v b))) name = Ok v) /\
  (forall v,
     fst (AddNumberClaim name v b) = OkStatus /\
     HasNumberClaim (built (snd (AddNumberClaim name v b))) name = true /\
     GetNumberClaim (built (snd (AddNumberClaim name v b))) name = Ok v) /\
  (fst (AddNullClaim name b) = OkStatus /\
   IsNullClaim (built (snd (AddNullClaim name b))) name = true).
Proof.
  intros Hname. pose proof (ValidatePayloadName_custom name Hname) as Hok.
  apply IsRegisteredClaimName_false in Hname.
  unfold AddStringClaim, AddBooleanClaim, AddNumberClaim, AddNullClaim,
    HasStringClaim, HasBooleanClaim, HasNumberClaim, IsNullClaim,
    GetStringClaim, GetBooleanClaim, GetNumberClaim, hasClaimOfKind, built.
  cbn zeta. rewrite Hok, Hname. cbn [ok code OkStatus negb fst snd json_proto_].
  repeat split; rewrite ?set_field_lookup; reflexivity.
Qed.

(** X5: a registered name is shut out of the accessors of custom claims,
    whatever the claim set holds under it: the six tests are false and the
    five getters fail with INVALID_ARGUMENT. *)
Theorem registered_names_shielded {json_util : JsonUtil} (token : RawJwt)
    (name : string) :
  name ∈ registered_claim_names ->
  (IsNullClaim token name = false /\
   HasBooleanClaim token name = false /\
   HasStringClaim token name = false /\
   HasNumberClaim token name = false /\
   HasJsonObjectClaim token name = false /\
   HasJsonArrayClaim token name = false) /\
  code (ValidatePayloadName name) = INVALID_ARGUMENT /\
  GetBooleanClaim token name = Err (ValidatePayloadName name) /\
  GetStringClaim token name = Err (ValidatePayloadName name) /\
  GetNumberClaim token name = Err (ValidatePayloadName name) /\
  GetJsonObjectClaim token name = Err (ValidatePayloadName name) /\
  GetJsonArrayClaim token name = Err (ValidatePayloadName name).
Proof.
  intros Hname.
  destruct (ValidatePayloadName_registered name Hname) as [Hok Hcode].
  apply IsRegisteredClaimName_spec in Hname.
  unfold IsNullClaim, HasBooleanClaim, HasStringClaim, HasNumberClaim,
    HasJsonObjectClaim, HasJsonArrayClaim, hasClaimOfKind, GetBooleanClaim,
    GetStringClaim, GetNumberClaim, GetJsonObjectClaim, GetJsonArrayClaim.
  cbn zeta. rewrite Hname, Hok. cbn [negb]. repeat split. exact Hcode.
Qed.

(** X6: for booleans, strings and numbers the test and the getter of a
    custom claim agree: [HasXClaim] is true exactly when [GetXClaim]
    returns a value.  A JSON object or array that the getter returns is one
    the test finds. *)
Theorem Has_claim_iff_Get {json_util : JsonUtil} (token : RawJwt)
    (name : string) :
  HasBooleanClaim token name = is_ok (GetBooleanClaim token name) /\
  HasStringClaim token name = is_ok (GetStringClaim token name) /\
  HasNumberClaim token name = is_ok (GetNumberClaim token name) /\
  (is_ok (GetJsonObjectClaim token name) = true ->
   HasJsonObjectClaim token name = true) /\
  (is_ok (GetJsonArrayClaim token name) = true ->
   HasJsonArrayClaim token name = true).
Proof.
  unfold HasBooleanClaim, HasStringClaim, HasNumberClaim, HasJsonObjectClaim,
    HasJsonArrayClaim, hasClaimOfKind, GetBooleanClaim, GetStringClaim,
    GetNumberClaim, GetJsonObjectClaim, GetJsonArrayClaim, ValidatePayloadName.
  cbn zeta.
  destruct (IsRegisteredClaimName name); cbn [ok code InvalidArgumentError
    OkStatus negb is_ok]; [repeat split; discriminate|].
  destruct (json_proto_ token !! name) as [v|];
    [destruct v|]; cbn; repeat split; try discriminate; reflexivity.
Qed.

(** X7: a getter of a custom claim reports NOT_FOUND exactly for a name
    that is not registered and not in the claim set. *)
Theorem custom_getters_NOT_FOUND (token : RawJwt) (name : string) :
  (code (status_of (GetBooleanClaim token name)) = NOT_FOUND <->
   (name ∉ registered_claim_names) /\ json_proto_ token !! name = None) /\
  (code (status_of (GetStringClaim token name)) = NOT_FOUND <->
   (name ∉ registered_claim_names) /\ json_proto_ token !! name = None) /\
  (code (status_of (GetNumberClaim token name)) = NOT_FOUND <->
   (name ∉ registered_claim_names) /\ json_proto_ token !! name = None).
Proof.
  rewrite <- IsRegisteredClaimName_false.
  unfold GetBooleanClaim, GetStringClaim, GetNumberClaim, ValidatePayloadName.
  cbn zeta.
  destruct (IsRegisteredClaimName name); cbn [ok code InvalidArgumentError
    OkStatus negb status_of].
  - repeat split; try discriminate; intros [? _]; discriminate.
  - destruct (json_proto_ token !! name) as [v|]; [destruct v|]; cbn;
      repeat split; try discriminate; try reflexivity;
      intros [_ ?]; discriminate.
Qed.

(** X8: a name has at most one kind: of the six tests of custom claims at
    most one is true for a claim set and a name. *)
Theorem custom_kinds_exclusive (token : RawJwt) (name : string) :
  (Nat.b2n (IsNullClaim token name) + Nat.b2n (HasBooleanClaim token name) +
   Nat.b2n (HasStringClaim token name) + Nat.b2n (HasNumberClaim token name) +
   Nat.b2n (HasJsonObjectClaim token name) +
   Nat.b2n (HasJsonArrayClaim token name) <= 1)%nat.
Proof.
  unfold IsNullClaim, HasBooleanClaim, HasStringClaim, HasNumberClaim,
    HasJsonObjectClaim, HasJsonArrayClaim, hasClaimOfKind.
  destruct (IsRegisteredClaimName name); [simpl; lia|].
  destruct (json_proto_ token !! name) as [v|]; [destruct v|]; simpl; lia.
Qed.

(** X9: [CustomClaimNames] lists, each once, exactly the names that are
    in the claim set and are not registered. *)
Theorem CustomClaimNames_spec (token : RawJwt) :
  (forall name,
     name ∈ CustomClaimNames token <->
     is_Some (json_proto_ token !! name) /\ (name ∉ registered_claim_names)) /\
  NoDup (CustomClaimNames token).
Proof.
  unfold CustomClaimNames. split.
  - intros name. rewrite list_elem_of_filter, IsRegisteredClaimName_false.
    rewrite list_elem_of_fmap. split.
    + intros [Hreg ([k v] & -> & Hkv)]. split; [|exact Hreg].
      apply elem_of_map_to_list in Hkv. simpl. rewrite Hkv. eauto.
    + intros [[v Hv] Hreg]. split; [exact Hreg|].
      exists (name, v). split; [reflexivity|].
      apply elem_of_map_to_list. exact Hv.
  - apply NoDup_filter, NoDup_fst_map_to_list.
Qed.

(** ** RawJwtBuilder: what a call leaves alone *)

(** A method for a registered claim writes under a registered name. *)
Lemma registered_call_lookup {json_util : JsonUtil} (c : BuilderCall)
    (b : RawJwtBuilder) (name : string) :
  is_registered_call c = true ->
  name ∉ registered_claim_names ->
  builder_json_proto_ (call c b) !! name = builder_json_proto_ b !! name.
Proof.
  intros Hc Hname.
  assert (forall r v, r ∈ registered_claim_names ->
            builder_json_proto_ (set_field r v b) !! name
            = builder_json_proto_ b !! name) as Hset.
  { intros r v Hr. apply set_field_lookup_ne.
    exact (unregistered_name_ne name r Hname Hr). }
  destruct c; try discriminate Hc; cbn [call];
    unfold SetIssuer, SetSubject, SetJwtId, SetExpiration, SetNotBefore,
      SetIssuedAt;
    unfold AddAudience; apply Hset; unfold registered_claim_names;
    set_solver.
Qed.

(** An adder of custom claims writes under a name that is not registered,
    or not at all. *)
Lemma custom_call_lookup {json_util : JsonUtil} (c : BuilderCall)
    (b : RawJwtBuilder) (r : string) :
  is_registered_call c = false ->
  r ∈ registered_claim_names ->
  builder_json_proto_ (call c b) !! r = builder_json_proto_ b !! r.
Proof.
  intros Hc Hr.
  assert (forall name v,
            IsRegisteredClaimName name = false ->
            builder_json_proto_ (set_field name v b) !! r
            = builder_json_proto_ b !! r) as Hset.
  { intros name v Hname. apply set_field_lookup_ne. intros ->.
    apply IsRegisteredClaimName_false in Hname. exact (Hname Hr). }
  destruct c; try discriminate Hc; cbn [call];
    unfold AddNullClaim, AddBooleanClaim, AddStringClaim, AddNumberClaim,
      AddJsonObjectClaim, AddJsonArrayClaim, ValidatePayloadName; cbn zeta;
    destruct (IsRegisteredClaimName name) eqn:Hname;
    cbn [ok code InvalidArgumentError OkStatus negb snd];
    try reflexivity; try (apply Hset; exact Hname).
  - destruct (JsonStringToProtoStruct object_value); cbn [snd];
      [apply Hset; exact Hname | reflexivity].
  - destruct (JsonStringToProtoList array_value); cbn [snd];
      [apply Hset; exact Hname | reflexivity].
Qed.

(** X10: the seven methods for registered claims never change a custom
    claim: after any of them, on any builder, the tests and the getters of
    custom claims answer for every name as before. *)
Theorem registered_calls_keep_custom_claims {json_util : JsonUtil}
    (c : BuilderCall) (b : RawJwtBuilder) (name : string) :
  is_registered_call c = true ->
  (forall kind,
     hasClaimOfKind (json_proto_ (built (call c b))) name kind
     = hasClaimOfKind (json_proto_ (built b)) name kind) /\
  GetBooleanClaim (built (call c b)) name = GetBooleanClaim (built b) name /\
  GetStringClaim (built (call c b)) name = GetStringClaim (built b) name /\
  GetNumberClaim (built (call c b)) name = GetNumberClaim (built b) name /\
  GetJsonObjectClaim (built (call c b)) name
    = GetJsonObjectClaim (built b) name /\
  GetJsonArrayClaim (built (call c b)) name
    = GetJsonArrayClaim (built b) name.
Proof.
  intros Hc.
  unfold hasClaimOfKind, GetBooleanClaim, GetStringClaim, GetNumberClaim,
    GetJsonObjectClaim, GetJsonArrayClaim, ValidatePayloadName, built.
  cbn zeta. cbn [json_proto_].
  destruct (IsRegisteredClaimName name) eqn:Hname;
    cbn [ok code InvalidArgumentError OkStatus negb]; [repeat split|].
  apply IsRegisteredClaimName_false in Hname.
  rewrite (registered_call_lookup c b name Hc Hname). repeat split.
Qed.

(** X11: the six adders of custom claims never change a registered claim,
    whatever name they are given: after any of them, on any builder, the
    seven accessors of registered claims answer as before. *)
Theorem custom_calls_keep_registered_claims {json_util : JsonUtil}
    (c : BuilderCall) (b : RawJwtBuilder) :
  is_registered_call c = false ->
  GetIssuer (built (call c b)) = GetIssuer (built b) /\
  GetSubject (built (call c b)) = GetSubject (built b) /\
  GetAudiences (built (call c b)) = GetAudiences (built b) /\
  GetJwtId (built (call c b)) = GetJwtId (built b) /\
  GetExpiration (built (call c b)) = GetExpiration (built b) /\
  GetNotBefore (built (call c b)) = GetNotBefore (built b) /\
  GetIssuedAt (built (call c b)) = GetIssuedAt (built b).
Proof.
  intros Hc.
  unfold GetIssuer, GetSubject, GetAudiences, GetJwtId, GetExpiration,
    GetNotBefore, GetIssuedAt, built. cbn [json_proto_].
  rewrite !(custom_call_lookup c b _ Hc)
    by (unfold registered_claim_names; set_solver).
  repeat split.
Qed.

(** X12: a JSON object or array is stored as the codec parses it.  Under a
    name that is not registered, text that parses is stored, and the getter
    returns what the codec writes for the parsed value; text that does not
    parse gives the status of the parser and leaves the builder as it
    was. *)
Theorem json_claims_through_codec {json_util : JsonUtil} (name text : string)
    (b : RawJwtBuilder) :
  name ∉ registered_claim_names ->
  (forall proto, JsonStringToProtoStruct text = Ok proto ->
     fst (AddJsonObjectClaim name text b) = OkStatus /\
     HasJsonObjectClaim (built (snd (AddJsonObjectClaim name text b))) name
       = true /\
     GetJsonObjectClaim (built (snd (AddJsonObjectClaim name text b))) name
       = ProtoStructToJsonString proto) /\
  (forall st, JsonStringToProtoStruct text = Err st ->
     AddJsonObjectClaim name text b = (st, b)) /\
  (forall values, JsonStringToProtoList text = Ok values ->
     fst (AddJsonArrayClaim name text b) = OkStatus /\
     HasJsonArrayClaim (built (snd (AddJsonArrayClaim name text b))) name
       = true /\
     GetJsonArrayClaim (built (snd (AddJsonArrayClaim name text b))) name
       = ProtoListToJsonString values) /\
  (forall st, JsonStringToProtoList text = Err st ->
     AddJsonArrayClaim name text b = (st, b)).
Proof.
  intros Hname. pose proof (ValidatePayloadName_custom name Hname) as Hok.
  apply IsRegisteredClaimName_false in Hname.
  unfold AddJsonObjectClaim, AddJsonArrayClaim, HasJsonObjectClaim,
    HasJsonArrayClaim, GetJsonObjectClaim, GetJsonArrayClaim, hasClaimOfKind,
    built.
  cbn zeta. rewrite Hok, Hname. cbn [ok code OkStatus negb json_proto_].
  repeat split; try (intros; subst);
    match goal with
    | Hp : _ = _ |- _ => rewrite Hp
    end; cbn [fst snd]; rewrite ?set_field_lookup; reflexivity.
Qed.

(** ** RawJwtBuilder: the kinds of the registered claims *)

Lemma static_cast_int_range (z : Z) :
  - 2 ^ 31 <= static_cast_int z < 2 ^ 31.
Proof.
  unfold static_cast_int.
  pose proof (Z.mod_pos_bound (z + 2 ^ 31) (2 ^ 32) ltac:(reflexivity)).
  assert (2 ^ 32 = 2 * 2 ^ 31) by reflexivity. lia.
Qed.

Lemma registered_kinds_empty : registered_kinds ∅.
Proof. repeat split; intros v Hv; rewrite lookup_empty in Hv; discriminate. Qed.

(** An insertion under a name that is not registered keeps the kinds. *)
Lemma registered_kinds_custom (name : string) (value : Value)
    (fields : Struct) :
  IsRegisteredClaimName name = false ->
  registered_kinds fields -> registered_kinds (<[name := value]> fields).
Proof.
  intros Hname (Hiss & Hsub & Hjti & Haud & Hexp & Hnbf & Hiat).
  assert (forall r, IsRegisteredClaimName r = true -> name <> r) as Hne.
  { intros r Hr ->. congruence. }
  repeat split; intros v Hv;
    rewrite lookup_insert_ne in Hv by (apply Hne; reflexivity);
    eauto.
Qed.

(** An insertion under a registered name keeps the kinds when the value
    inserted has the kind of that name. *)
Lemma registered_kinds_registered (name : string) (value : Value)
    (fields : Struct) :
  registered_kinds (<[name := value]> ∅) ->
  registered_kinds fields -> registered_kinds (<[name := value]> fields).
Proof.
  intros (Niss & Nsub & Njti & Naud & Nexp & Nnbf & Niat)
         (Hiss & Hsub & Hjti & Haud & Hexp & Hnbf & Hiat).
  repeat split; intros v Hv;
    match type of Hv with
    | <[_ := _]> _ !! ?k = _ =>
        destruct (decide (name = k)) as [->|Hne];
        [ rewrite lookup_insert_eq in Hv |
          rewrite lookup_insert_ne in Hv by exact Hne; eauto ]
    end.
  - apply Niss. rewrite lookup_insert_eq. exact Hv.
  - apply Nsub. rewrite lookup_insert_eq. exact Hv.
  - apply Njti. rewrite lookup_insert_eq. exact Hv.
  - apply Naud. rewrite lookup_insert_eq. exact Hv.
  - apply Nexp. rewrite lookup_insert_eq. exact Hv.
  - apply Nnbf. rewrite lookup_insert_eq. exact Hv.
  - apply Niat. rewrite lookup_insert_eq. exact Hv.
Qed.

(** The kinds of a map with one entry, a string under [name]. *)
Lemma registered_kinds_string (name s : string) :
  name <> kJwtClaimAudience -> name <> kJwtClaimExpiration ->
  name <> kJwtClaimNotBefore -> name <> kJwtClaimIssuedAt ->
  registered_kinds (<[name := StringValue s]> ∅).
Proof.
  intros Haud Hexp Hnbf Hiat.
  repeat split; intros v Hv;
    match type of Hv with
    | <[_ := _]> _ !! ?k = _ =>
        destruct (decide (name = k)) as [->|Hne];
        [ rewrite lookup_insert_eq in Hv |
          rewrite lookup_insert_ne, lookup_empty in Hv by exact Hne;
          discriminate ]
    end;
    try congruence; injection Hv as <-; eauto.
Qed.

(** The kinds of a map with one entry, a 32-bit number of seconds under
    [name]. *)
Lemma registered_kinds_time (name : string) (z : Z) :
  name <> kJwtClaimIssuer -> name <> kJwtClaimSubject ->
  name <> kJwtClaimJwtId -> name <> kJwtClaimAudience ->
  - 2 ^ 31 <= z < 2 ^ 31 ->
  registered_kinds (<[name := NumberValue (int_to_double z)]> ∅).
Proof.
  intros Hiss Hsub Hjti Haud Hz.
  repeat split; intros v Hv;
    match type of Hv with
    | <[_ := _]> _ !! ?k = _ =>
        destruct (decide (name = k)) as [->|Hne];
        [ rewrite lookup_insert_eq in Hv |
          rewrite lookup_insert_ne, lookup_empty in Hv by exact Hne;
          discriminate ]
    end;
    try congruence; injection Hv as <-; eauto.
Qed.

(** Every call keeps the kinds of the registered claims. *)
Lemma registered_kinds_call {json_util : JsonUtil} (c : BuilderCall)
    (b : RawJwtBuilder) :
  registered_kinds (builder_json_proto_ b) ->
  registered_kinds (builder_json_proto_ (call c b)).
Proof.
  intros Hb.
  destruct c; cbn [call].
  - apply registered_kinds_registered; [|exact Hb].
    apply registered_kinds_string; discriminate.
  - apply registered_kinds_registered; [|exact Hb].
    apply registered_kinds_string; discriminate.
  - destruct Hb as (Hiss & Hsub & Hjti & Haud & Hexp & Hnbf & Hiat).
    unfold AddAudience. cbn [builder_json_proto_].
    repeat split; intros v Hv;
      try (rewrite lookup_insert_ne in Hv by discriminate; eauto; fail).
    rewrite lookup_insert_eq in Hv. injection Hv as <-.
    destruct (builder_json_proto_ b !! kJwtClaimAudience) as [old|] eqn:Hold.
    + destruct (Haud old eq_refl) as (auds & Hne & ->).
      exists (auds ++ [audience])%list. split.
      * intros Happ. apply app_eq_nil in Happ. destruct Happ; discriminate.
      * rewrite fmap_app. reflexivity.
    + exists [audience]. split; [discriminate | reflexivity].
  - apply registered_kinds_registered; [|exact Hb].
    apply registered_kinds_string; discriminate.
  - apply registered_kinds_registered; [|exact Hb].
    apply registered_kinds_time; try discriminate.
    apply static_cast_int_range.
  - apply registered_kinds_registered; [|exact Hb].
    apply registered_kinds_time; try discriminate.
    apply static_cast_int_range.
  - apply registered_kinds_registered; [|exact Hb].
    apply registered_kinds_time; try discriminate.
    apply static_cast_int_range.
  - unfold AddNullClaim, ValidatePayloadName. cbn zeta.
    destruct (IsRegisteredClaimName name) eqn:Hname; cbn; [exact Hb|].
    apply registered_kinds_custom; assumption.
  - unfold AddBooleanClaim, ValidatePayloadName. cbn zeta.
    destruct (IsRegisteredClaimName name) eqn:Hname; cbn; [exact Hb|].
    apply registered_kinds_custom; assumption.
  - unfold AddStringClaim, ValidatePayloadName. cbn zeta.
    destruct (IsRegisteredClaimName name) eqn:Hname; cbn; [exact Hb|].
    apply registered_kinds_custom; assumption.
  - unfold AddNumberClaim, ValidatePayloadName. cbn zeta.
    destruct (IsRegisteredClaimName name) eqn:Hname; cbn; [exact Hb|].
    apply registered_kinds_custom; assumption.
  - unfold AddJsonObjectClaim, ValidatePayloadName. cbn zeta.
    destruct (IsRegisteredClaimName name) eqn:Hname; cbn; [exact Hb|].
    destruct (JsonStringToProtoStruct object_value); cbn; [|exact Hb].
    apply registered_kinds_custom; assumption.
  - unfold AddJsonArrayClaim, ValidatePayloadName. cbn zeta.
    destruct (IsRegisteredClaimName name) eqn:Hname; cbn; [exact Hb|].
    destruct (JsonStringToProtoList array_value); cbn; [|exact Hb].
    apply registered_kinds_custom; assumption.
Qed.

Lemma registered_kinds_calls {json_util : JsonUtil} (cs : list BuilderCall)
    (b : RawJwtBuilder) :
  registered_kinds (builder_json_proto_ b) ->
  registered_kinds (builder_json_proto_ (calls cs b)).
Proof.
  revert b. induction cs as [|c cs IH]; intros b Hb; [exact Hb|].
  apply (IH (call c b)), registered_kinds_call, Hb.
Qed.

(** X13: whatever methods are called on a new builder, in whatever order and
    with whatever arguments, the claim set built from it holds every
    registered claim with the kind its accessor reads.  An accessor of a
    registered claim then never answers that the kind is wrong: a claim
    that is there is returned, the audiences are a non-empty list, and the
    times are whole seconds within the range of a 32-bit [int]. *)
Theorem built_claims_well_kinded {json_util : JsonUtil}
    (cs : list BuilderCall) :
  let token := built (calls cs RawJwtBuilder_new) in
  Build (calls cs RawJwtBuilder_new) = Ok token /\
  (HasIssuer token = true -> exists s, GetIssuer token = Ok s) /\
  (HasSubject token = true -> exists s, GetSubject token = Ok s) /\
  (HasJwtId token = true -> exists s, GetJwtId token = Ok s) /\
  (HasAudiences token = true ->
   exists auds, auds <> [] /\ GetAudiences token = Ok auds) /\
  (HasExpiration token = true ->
   exists z, - 2 ^ 31 <= z < 2 ^ 31 /\
     GetExpiration token = Ok (Some (FromUnixSeconds z))) /\
  (HasNotBefore token = true ->
   exists z, - 2 ^ 31 <= z < 2 ^ 31 /\
     GetNotBefore token = Ok (Some (FromUnixSeconds z))) /\
  (HasIssuedAt token = true ->
   exists z, - 2 ^ 31 <= z < 2 ^ 31 /\
     GetIssuedAt token = Ok (Some (FromUnixSeconds z))).
Proof.
  intros token.
  destruct (registered_kinds_calls cs RawJwtBuilder_new registered_kinds_empty)
    as (Hiss & Hsub & Hjti & Haud & Hexp & Hnbf & Hiat).
  subst token.
  unfold HasIssuer, GetIssuer, HasSubject, GetSubject, HasJwtId, GetJwtId,
    HasAudiences, GetAudiences, HasExpiration, GetExpiration, HasNotBefore,
    GetNotBefore, HasIssuedAt, GetIssuedAt, contains, built.
  cbn [json_proto_].
  split; [reflexivity|].
  repeat split; intros Hhas;
    match goal with
    | Hhas : match ?m !! ?k with _ => _ end = true |- _ =>
        destruct (m !! k) as [v|] eqn:Hv; [|discriminate]
    end.
  - destruct (Hiss v eq_refl) as [s ->]. eauto.
  - destruct (Hsub v eq_refl) as [s ->]. eauto.
  - destruct (Hjti v eq_refl) as [s ->]. eauto.
  - destruct (Haud v eq_refl) as (auds & Hne & ->). exists auds.
    split; [exact Hne|]. exact (GetAudiences_loop_strings auds []).
  - destruct (Hexp v eq_refl) as (z & Hz & ->). exists z. split; [exact Hz|].
    rewrite (time_number_read_back z Hz). reflexivity.
  - destruct (Hnbf v eq_refl) as (z & Hz & ->). exists z. split; [exact Hz|].
    rewrite (time_number_read_back z Hz). reflexivity.
  - destruct (Hiat v eq_refl) as (z & Hz & ->). exists z. split; [exact Hz|].
    rewrite (time_number_read_back z Hz). reflexivity.
Qed.

(** ** JwtMacImpl: what is accepted, and the token that is produced *)

Lemma StrSplit_three_segments (h p t : string) :
  count_char h dot = O -> count_char p dot = O -> count_char t dot = O ->
  StrSplit ((h +:+ String dot p) +:+ String dot t) dot = [h; p; t].
Proof.
  intros Hh Hp Ht. induction h as [|a r IH]; simpl.
  - rewrite (StrSplit_header_payload p t Hp Ht). reflexivity.
  - simpl in Hh. destruct (Ascii.eqb a dot); [discriminate|].
    rewrite (IH Hh). reflexivity.
Qed.

Section JwtMacImplFurtherFacts.
Context {json_util : JsonUtil} {jwt_format : JwtFormat}.

(** The run of [VerifyMacAndDecode] on three dot-free segments, up to the
    decoding of the tag and the split of the signing input. *)
Lemma VerifyMacAndDecode_three_segments (self : JwtMacImpl)
    (validator : JwtValidator)
    (encoded_header encoded_payload encoded_tag mac_value : string) :
  no_dot encoded_header -> no_dot encoded_payload -> no_dot encoded_tag ->
  DecodeSignature encoded_tag = Some mac_value ->
  VerifyMacAndDecode self
    ((encoded_header +:+ "." +:+ encoded_payload) +:+ "." +:+ encoded_tag)
    validator
  = let verify_result :=
      VerifyMac (mac_ self) mac_value
        (encoded_header +:+ "." +:+ encoded_payload) in
    if negb (ok verify_result) then Err verify_result
    else
      let validate_header_result :=
        ValidateHeader encoded_header (algorithm_ self) in
      if negb (ok validate_header_result) then Err validate_header_result
      else
        match DecodePayload encoded_payload with
        | None => Err (mkStatus INVALID_ARGUMENT "invalid JWT payload")
        | Some json_payload =>
            match FromString json_payload with
            | Err st => Err st
            | Ok raw_jwt =>
                let validate_result := Validate validator raw_jwt in
                if negb (ok validate_result) then Err validate_result
                else Ok (mkVerifiedJwt raw_jwt)
            end
        end.
Proof.
  intros Hh Hp Ht Hdec.
  unfold VerifyMacAndDecode.
  destruct (VerifyMacAndDecode_cut self validator
              (encoded_header +:+ "." +:+ encoded_payload) encoded_tag Ht)
    as (-> & -> & ->).
  rewrite Hdec. cbn zeta.
  change ("." +:+ encoded_payload) with (String dot encoded_payload).
  rewrite (StrSplit_header_payload _ _ Hh Hp). reflexivity.
Qed.

(** X14: [VerifyMacAndDecode] returns the claim set [raw_jwt] exactly when
    the token is three dot-free segments, the third decodes to a tag that
    the MAC verifies over the first two with their dot, the first passes
    the header validation for the algorithm of the handle, the second
    decodes to a JSON text that parses to [raw_jwt], and the validator
    accepts [raw_jwt]. *)
Theorem VerifyMacAndDecode_Ok_iff (self : JwtMacImpl)
    (validator : JwtValidator) (compact : string) (raw_jwt : RawJwt) :
  VerifyMacAndDecode self compact validator = Ok (mkVerifiedJwt raw_jwt) <->
  exists encoded_header encoded_payload encoded_tag mac_value json_payload,
    compact
      = (encoded_header +:+ "." +:+ encoded_payload) +:+ "." +:+ encoded_tag /\
    no_dot encoded_header /\ no_dot encoded_payload /\ no_dot encoded_tag /\
    DecodeSignature encoded_tag = Some mac_value /\
    ok (VerifyMac (mac_ self) mac_value
          (encoded_header +:+ "." +:+ encoded_payload)) = true /\
    ok (ValidateHeader encoded_header (algorithm_ self)) = true /\
    DecodePayload encoded_payload = Some json_payload /\
    FromString json_payload = Ok raw_jwt /\
    ok (Validate validator raw_jwt) = true.
Proof.
  split.
  - intros Hok.
    assert (is_ok (VerifyMacAndDecode self compact validator) = true) as Hacc
      by (rewrite Hok; reflexivity).
    destruct (VerifyMacAndDecode_accepted self validator compact Hacc)
      as (h & p & t & mac_value & -> & Hh & Hp & Ht & Hdec & Hver).
    rewrite (VerifyMacAndDecode_three_segments self validator h p t mac_value
               Hh Hp Ht Hdec) in Hok.
    cbn zeta in Hok. rewrite Hver in Hok. cbn [negb] in Hok.
    destruct (ok (ValidateHeader h (algorithm_ self))) eqn:Hhdr;
      [|discriminate]. cbn [negb] in Hok.
    destruct (DecodePayload p) as [json_payload|] eqn:Hpay; [|discriminate].
    destruct (FromString json_payload) as [raw|st] eqn:Hraw; [|discriminate].
    destruct (ok (Validate validator raw)) eqn:Hval; [|discriminate].
    cbn [negb] in Hok. injection Hok as ->.
    exists h, p, t, mac_value, json_payload. repeat split; assumption.
  - intros (h & p & t & mac_value & json_payload & -> & Hh & Hp & Ht & Hdec
            & Hver & Hhdr & Hpay & Hraw & Hval).
    rewrite (VerifyMacAndDecode_three_segments self validator h p t mac_value
               Hh Hp Ht Hdec).
    cbn zeta. rewrite Hver, Hhdr, Hpay, Hraw, Hval. reflexivity.
Qed.

(** X15: on three dot-free segments whose tag verifies, whose header is
    valid and whose payload decodes, the answer is decided by the JSON
    parser and then by the validator: a payload that does not parse gives
    the status of the parser, a claim set the validator rejects gives the
    status of the validator, and otherwise the parsed claim set is
    returned. *)
Theorem VerifyMacAndDecode_parser_then_validator (self : JwtMacImpl)
    (validator : JwtValidator)
    (encoded_header encoded_payload encoded_tag mac_value json_payload
       : string) :
  no_dot encoded_header -> no_dot encoded_payload -> no_dot encoded_tag ->
  DecodeSignature encoded_tag = Some mac_value ->
  ok (VerifyMac (mac_ self) mac_value
        (encoded_header +:+ "." +:+ encoded_payload)) = true ->
  ok (ValidateHeader encoded_header (algorithm_ self)) = true ->
  DecodePayload encoded_payload = Some json_payload ->
  VerifyMacAndDecode self
    ((encoded_header +:+ "." +:+ encoded_payload) +:+ "." +:+ encoded_tag)
    validator
  = match FromString json_payload with
    | Err st => Err st
    | Ok raw_jwt =>
        if ok (Validate validator raw_jwt) then Ok (mkVerifiedJwt raw_jwt)
        else Err (Validate validator raw_jwt)
    end.
Proof.
  intros Hh Hp Ht Hdec Hver Hhdr Hpay.
  rewrite (VerifyMacAndDecode_three_segments self validator _ _ _ mac_value
             Hh Hp Ht Hdec).
  cbn zeta. rewrite Hver, Hhdr, Hpay. cbn [negb].
  destruct (FromString json_payload) as [raw|st]; [|reflexivity].
  destruct (ok (Validate validator raw)); reflexivity.
Qed.

(** X16: a token that [ComputeMacAndEncode] returns is in the JWS compact
    serialization: it has exactly two dots, and splitting it at the dots
    gives the header of the algorithm, the encoded JSON text of the claim
    set and the encoded tag that the MAC computed over the first two with
    their dot. *)
Theorem ComputeMacAndEncode_compact_serialization (self : JwtMacImpl)
    (token : RawJwt) (compact : string) :
  JwtFormat_laws (algorithm_ self) ->
  ComputeMacAndEncode self token = Ok compact ->
  exists payload tag,
    ToString token = Ok payload /\
    ComputeMac (mac_ self)
      (CreateHeader (algorithm_ self) +:+ "." +:+ EncodePayload payload)
      = Ok tag /\
    StrSplit compact dot
      = [CreateHeader (algorithm_ self); EncodePayload payload;
         EncodeSignature tag] /\
    count_char compact dot = 2%nat.
Proof.
  intros Hfmt Hcompute.
  unfold ComputeMacAndEncode in Hcompute.
  destruct (ToString token) as [payload|st] eqn:Hpayload; [|discriminate].
  destruct (ComputeMac (mac_ self) _) as [tag|st] eqn:Htag; [|discriminate].
  injection Hcompute as <-.
  exists payload, tag.
  split; [reflexivity|]. split; [exact Htag|].
  pose proof (CreateHeader_no_dot Hfmt) as Hh.
  pose proof (EncodePayload_no_dot Hfmt payload) as Hp.
  pose proof (EncodeSignature_no_dot Hfmt tag) as Ht.
  pose proof (StrSplit_three_segments _ _ _
                (CreateHeader_no_dot Hfmt) (EncodePayload_no_dot Hfmt payload)
                (EncodeSignature_no_dot Hfmt tag)) as Hsplit.
  change (String dot (EncodePayload payload))
    with ("." +:+ EncodePayload payload) in Hsplit.
  change (String dot (EncodeSignature tag))
    with ("." +:+ EncodeSignature tag) in Hsplit.
  split; [exact Hsplit|].
  pose proof (StrSplit_length
                ((CreateHeader (algorithm_ self) +:+ "." +:+
                    EncodePayload payload) +:+ "." +:+ EncodeSignature tag)
                dot) as Hlen.
  rewrite Hsplit in Hlen. cbn [length] in Hlen. lia.
Qed.

(** X17: the token that a handle produced for [token], given to any handle
    and any validator.  The answer is decided, in this order, by the MAC of
    the verifying handle on the tag, by the header validation for the
    algorithm of the verifying handle, and by the validator on [token]; each
    of them that rejects gives its own status, and otherwise [token] is
    returned.  The format helpers are assumed to keep their contracts and
    the JSON text of [token] to parse back to [token]. *)
Theorem VerifyMacAndDecode_produced (self other : JwtMacImpl)
    (token : RawJwt) (validator : JwtValidator) (compact : string) :
  JwtFormat_laws (algorithm_ self) ->
  Json_round_trips token ->
  ComputeMacAndEncode self token = Ok compact ->
  exists payload tag,
    ToString token = Ok payload /\
    ComputeMac (mac_ self)
      (CreateHeader (algorithm_ self) +:+ "." +:+ EncodePayload payload)
      = Ok tag /\
    VerifyMacAndDecode other compact validator
    = let verify_result :=
        VerifyMac (mac_ other) tag
          (CreateHeader (algorithm_ self) +:+ "." +:+ EncodePayload payload) in
      let validate_header_result :=
        ValidateHeader (CreateHeader (algorithm_ self)) (algorithm_ other) in
      let validate_result := Validate validator token in
      if negb (ok verify_result) then Err verify_result
      else if negb (ok validate_header_result) then Err validate_header_result
      else if negb (ok validate_result) then Err validate_result
      else Ok (mkVerifiedJwt token).
Proof.
  intros Hfmt Hjson Hcompute.
  unfold ComputeMacAndEncode in Hcompute.
  destruct (ToString token) as [payload|st] eqn:Hpayload; [|discriminate].
  destruct (ComputeMac (mac_ self) _) as [tag|st] eqn:Htag; [|discriminate].
  injection Hcompute as <-.
  exists payload, tag.
  split; [reflexivity|]. split; [exact Htag|].
  rewrite (VerifyMacAndDecode_three_segments other validator _ _ _ tag
             (CreateHeader_no_dot Hfmt) (EncodePayload_no_dot Hfmt payload)
             (EncodeSignature_no_dot Hfmt tag)
             (DecodeSignature_EncodeSignature Hfmt tag)).
  cbn zeta.
  rewrite (DecodePayload_EncodePayload Hfmt), (Hjson payload Hpayload).
  reflexivity.
Qed.

End JwtMacImplFurtherFacts.

(** ** JwtHmacKeyManager::JwtMacFactory *)

(** Membership in a list that is written out. *)
Ltac in_list :=
  repeat (apply elem_of_cons; first [left; reflexivity | right]).

Section JwtHmacKeyManagerFacts.
Context {SubtleHashType : Type}.
Variable HashName : HashType -> string.
Variable ProtoToSubtle : HashType -> SubtleHashType.
Variable HmacBoringSsl_New : SubtleHashType -> Z -> string -> StatusOr Mac.

(** X18: [JwtMacFactory::Create] returns a handle exactly for the hash
    types SHA256, SHA384 and SHA512 when the HMAC constructor accepts the
    key with the tag size 32, 48 or 64; the handle then holds that HMAC and
    the algorithm name HS256, HS384 or HS512 of the same row.  A status of
    the constructor is returned as it is, and any other hash type is
    refused with INVALID_ARGUMENT whatever the constructor would answer. *)
Theorem JwtMacFactory_Create_rows (jwt_hmac_key : JwtHmacKey) :
  let Create := JwtMacFactory_Create HashName ProtoToSubtle HmacBoringSsl_New in
  let New tag_size :=
    HmacBoringSsl_New (ProtoToSubtle (hash_type jwt_hmac_key)) tag_size
      (key_value jwt_hmac_key) in
  (forall jwt_mac, Create jwt_hmac_key = Ok jwt_mac <->
     exists tag_size,
       (hash_type jwt_hmac_key, tag_size, algorithm_ jwt_mac)
         ∈ [(SHA256, 32, "HS256"); (SHA384, 48, "HS384");
            (SHA512, 64, "HS512")] /\
       New tag_size = Ok (mac_ jwt_mac)) /\
  (forall tag_size algorithm st,
     (hash_type jwt_hmac_key, tag_size, algorithm)
       ∈ [(SHA256, 32, "HS256"); (SHA384, 48, "HS384");
          (SHA512, 64, "HS512")] ->
     New tag_size = Err st -> Create jwt_hmac_key = Err st) /\
  (forall value, hash_type jwt_hmac_key = OtherHashType value ->
     Create jwt_hmac_key
       = Err (mkStatus INVALID_ARGUMENT
                ("HashType '" +:+ HashName (OtherHashType value) +:+
                 "' is not supported."))).
Proof.
  intros Create New. subst Create New. unfold JwtMacFactory_Create.
  repeat apply conj.
  - intros [mac alg]. cbn [mac_ algorithm_]. split.
    + destruct (hash_type jwt_hmac_key) eqn:Hhash; cbn zeta iota beta;
        try discriminate;
        match goal with
        | |- context [HmacBoringSsl_New ?h ?n ?k] =>
            destruct (HmacBoringSsl_New h n k) as [m|st] eqn:Hnew;
            [|discriminate]; intros [= <- <-]; exists n;
            split; [in_list | exact Hnew]
        end.
    + intros (tag_size & Hrow & Hnew).
      repeat (apply elem_of_cons in Hrow as [[= Hhash <- <-]|Hrow]);
        try (rewrite Hhash in *; cbn zeta iota beta; rewrite Hnew;
             reflexivity).
      apply elem_of_nil in Hrow. destruct Hrow.
  - intros tag_size algorithm st Hrow Hnew.
    repeat (apply elem_of_cons in Hrow as [[= Hhash <- <-]|Hrow]);
      try (rewrite Hhash in *; cbn zeta iota beta; rewrite Hnew;
           reflexivity).
    apply elem_of_nil in Hrow. destruct Hrow.
  - intros value ->. reflexivity.
Qed.

End JwtHmacKeyManagerFacts.

(** ** RawJwtEcdsaVerifyKeyManager *)

(** X19: the three switches on the ECDSA algorithm agree, row by row.
    ES256 is valid and selects the curve P-256 with the hash SHA256, ES384
    the curve P-384 with SHA384, and ES512 the curve P-521 with SHA512;
    every other value is refused by all three with the same status. *)
Theorem ValidateAlgorithm_CurveForEcdsaAlgorithm_HashForEcdsaAlgorithm
    (algorithm : JwtEcdsaAlgorithm) :
  ((algorithm, ValidateAlgorithm algorithm, CurveForEcdsaAlgorithm algorithm,
    HashForEcdsaAlgorithm algorithm)
     ∈ [(ES256, OkStatus, Ok NIST_P256, Ok SHA256);
        (ES384, OkStatus, Ok NIST_P384, Ok SHA384);
        (ES512, OkStatus, Ok NIST_P521, Ok SHA512)] \/
   (exists value, algorithm = OtherEcdsaAlgorithm value) /\
   ValidateAlgorithm algorithm = Unsupported_Ecdsa_Algorithm /\
   CurveForEcdsaAlgorithm algorithm = Err Unsupported_Ecdsa_Algorithm /\
   HashForEcdsaAlgorithm algorithm = Err Unsupported_Ecdsa_Algorithm) /\
  (ok (ValidateAlgorithm algorithm) = true <->
   algorithm ∈ [ES256; ES384; ES512]) /\
  is_ok (CurveForEcdsaAlgorithm algorithm) = ok (ValidateAlgorithm algorithm) /\
  is_ok (HashForEcdsaAlgorithm algorithm) = ok (ValidateAlgorithm algorithm).
Proof.
  destruct algorithm;
    unfold ValidateAlgorithm, CurveForEcdsaAlgorithm, HashForEcdsaAlgorithm.
  1-3: split; [left; in_list|].
  4: split; [right; eauto|].
  all: split; [|split; reflexivity].
  1-3: split; [intros _; in_list | reflexivity].
  split; [discriminate|].
  intros Hin. exfalso.
  repeat (apply elem_of_cons in Hin as [Hin|Hin]; [discriminate Hin|]).
  apply elem_of_nil in Hin. exact Hin.
Qed.

Section RawJwtEcdsaVerifyKeyManagerFacts.
Context {SubtleCurveType SubtleHashType PublicKeyVerify : Type}.
Variable ProtoToSubtle_curve : EllipticCurveType -> SubtleCurveType.
Variable ProtoToSubtle_hash : HashType -> SubtleHashType.
Variable EcdsaVerifyBoringSsl_New :
  @EcKey SubtleCurveType -> SubtleHashType -> EcdsaSignatureEncoding ->
  StatusOr PublicKeyVerify.
Variable ValidateVersion : Z -> Z -> Status.
Variable get_version : Z.

(** X20: for a key that [ValidateKey] accepts, [PublicKeyVerifyFactory::
    Create] is the answer of the ECDSA verifier's constructor on the
    coordinates of the key, the curve and the hash of its algorithm and the
    IEEE P1363 signature encoding: the factory itself refuses nothing that
    the validation let through. *)
Theorem PublicKeyVerifyFactory_Create_validated (key : JwtEcdsaPublicKey) :
  ok (ValidateKey ValidateVersion get_version key) = true ->
  ok (ValidateVersion (ecdsa_version key) get_version) = true /\
  exists curve_value hash_value,
    (ecdsa_algorithm key, curve_value, hash_value)
      ∈ [(ES256, NIST_P256, SHA256); (ES384, NIST_P384, SHA384);
         (ES512, NIST_P521, SHA512)] /\
    PublicKeyVerifyFactory_Create ProtoToSubtle_curve ProtoToSubtle_hash
      EcdsaVerifyBoringSsl_New key
    = EcdsaVerifyBoringSsl_New
        (mkEcKey (ProtoToSubtle_curve curve_value) (ecdsa_x key)
           (ecdsa_y key))
        (ProtoToSubtle_hash hash_value) IEEE_P1363.
Proof.
  unfold ValidateKey, PublicKeyVerifyFactory_Create. cbn zeta.
  destruct (ok (ValidateVersion (ecdsa_version key) get_version)) eqn:Hver;
    cbn [negb]; [|intros Hok; rewrite Hver in Hok; discriminate].
  intros Halg. split; [reflexivity|].
  destruct (ecdsa_algorithm key); try discriminate Halg; cbn.
  - exists NIST_P256, SHA256. split; [in_list|].
    destruct (EcdsaVerifyBoringSsl_New _ _ _); reflexivity.
  - exists NIST_P384, SHA384. split; [in_list|].
    destruct (EcdsaVerifyBoringSsl_New _ _ _); reflexivity.
  - exists NIST_P521, SHA512. split; [in_list|].
    destruct (EcdsaVerifyBoringSsl_New _ _ _); reflexivity.
Qed.

(** X21: a key with an algorithm other than ES256, ES384 and ES512 gets no
    verifier, whatever the constructor would answer, and [ValidateKey]
    does not accept it, whatever its version. *)
Theorem PublicKeyVerifyFactory_Create_unsupported (key : JwtEcdsaPublicKey) :
  ok (ValidateAlgorithm (ecdsa_algorithm key)) = false ->
  PublicKeyVerifyFactory_Create ProtoToSubtle_curve ProtoToSubtle_hash
    EcdsaVerifyBoringSsl_New key
  = Err Unsupported_Ecdsa_Algorithm /\
  ok (ValidateKey ValidateVersion get_version key) = false.
Proof.
  unfold ValidateKey, PublicKeyVerifyFactory_Create. cbn zeta.
  destruct (ecdsa_algorithm key); try discriminate. intros _. cbn.
  split; [reflexivity|].
  destruct (ok (ValidateVersion (ecdsa_version key) get_version)) eqn:Hver;
    cbn [negb]; [reflexivity | exact Hver].
Qed.

End RawJwtEcdsaVerifyKeyManagerFacts.

(** ** SafeZeroMemory and SanitizingAllocator *)

Lemma SafeZeroMemory_length (memory : list Z) (ptr size : nat) :
  length (SafeZeroMemory memory ptr size) = length memory.
Proof.
  revert memory ptr. induction size as [|size IH]; intros memory ptr;
    cbn [SafeZeroMemory]; [reflexivity|].
  rewrite IH. apply length_insert.
Qed.

Lemma SafeZeroMemory_lookup (memory : list Z) (ptr size i : nat) :
  (ptr + size <= length memory)%nat ->
  SafeZeroMemory memory ptr size !! i
  = if bool_decide (ptr <= i < ptr + size)%nat then Some 0 else memory !! i.
Proof.
  revert memory ptr. induction size as [|size IH]; intros memory ptr Hlen;
    cbn [SafeZeroMemory].
  - rewrite bool_decide_eq_false_2 by lia. reflexivity.
  - rewrite IH by (rewrite length_insert; lia).
    destruct (decide (i = ptr)) as [->|Hne].
    + rewrite (bool_decide_eq_false_2 (S ptr <= ptr < S ptr + size)%nat)
        by lia.
      rewrite (bool_decide_eq_true_2 (ptr <= ptr < ptr + S size)%nat) by lia.
      apply list_lookup_insert_eq. lia.
    + rewrite list_lookup_insert_ne by (apply not_eq_sym; exact Hne).
      destruct (decide (S ptr <= i < S ptr + size)%nat) as [Hin|Hout].
      * rewrite !bool_decide_eq_true_2 by lia. reflexivity.
      * rewrite !bool_decide_eq_false_2 by lia. reflexivity.
Qed.

(** X22: [SafeZeroMemory] on a block that lies within the memory writes 0
    to every byte of the block and to nothing else: the memory afterwards
    is the bytes before the block, [size] zeros, and the bytes after the
    block. *)
Theorem SafeZeroMemory_block (memory : list Z) (ptr size : nat) :
  (ptr + size <= length memory)%nat ->
  SafeZeroMemory memory ptr size
  = (take ptr memory ++ replicate size 0 ++ drop (ptr + size) memory)%list.
Proof.
  intros Hlen. apply list_eq. intros i.
  rewrite (SafeZeroMemory_lookup memory ptr size i Hlen).
  destruct (decide (i < ptr)%nat) as [Hlt|Hge].
  - rewrite bool_decide_eq_false_2 by lia.
    rewrite lookup_app_l by (rewrite length_take; lia).
    rewrite lookup_take_lt by exact Hlt. reflexivity.
  - rewrite lookup_app_r by (rewrite length_take; lia).
    rewrite length_take, Nat.min_l by lia.
    destruct (decide (i < ptr + size)%nat) as [Hin|Hout].
    + rewrite bool_decide_eq_true_2 by lia.
      rewrite lookup_app_l by (rewrite length_replicate; lia).
      symmetry. apply lookup_replicate_2. lia.
    + rewrite bool_decide_eq_false_2 by lia.
      rewrite lookup_app_r by (rewrite length_replicate; lia).
      rewrite length_replicate, lookup_drop. f_equal. lia.
Qed.

(** X23: [SanitizingAllocator<T>::deallocate(ptr, n)] hands the block back
    with every byte of each of its [n] objects set to 0, and with the bytes
    outside the block as they were. *)
Theorem SanitizingAllocator_deallocate_zeroes (sizeof_T : nat)
    (memory : list Z) (ptr n : nat) :
  (ptr + n * sizeof_T <= length memory)%nat ->
  let after := SanitizingAllocator_deallocate sizeof_T memory ptr n in
  length after = length memory /\
  (forall object byte, (object < n)%nat -> (byte < sizeof_T)%nat ->
     after !! (ptr + object * sizeof_T + byte)%nat = Some 0) /\
  (forall i, (i < ptr)%nat \/ (ptr + n * sizeof_T <= i)%nat ->
     after !! i = memory !! i).
Proof.
  intros Hlen after. subst after. unfold SanitizingAllocator_deallocate.
  split; [apply SafeZeroMemory_length|]. split.
  - intros object byte Hobject Hbyte.
    rewrite (SafeZeroMemory_lookup _ _ _ _ Hlen).
    rewrite bool_decide_eq_true_2; [reflexivity|]. nia.
  - intros i Hi.
    rewrite (SafeZeroMemory_lookup _ _ _ _ Hlen).
    rewrite bool_decide_eq_false_2 by lia. reflexivity.
Qed.

(** ** The further properties on the instances *)

(** X2 on the time half a second after 1300819380, the expiration of the
    token of the test ValidateFixedToken: the half second is gone. *)
Lemma time_setters_round_trip_half_second :
  Time_wf (mkTime 1300819380 2000000000) /\
  - 2 ^ 31 <= floor_seconds (mkTime 1300819380 2000000000) < 2 ^ 31 /\
  GetExpiration
    (built (SetExpiration (mkTime 1300819380 2000000000) RawJwtBuilder_new))
    = Ok (Some (FromUnixSeconds 1300819380)).
Proof.
  assert (Time_wf (mkTime 1300819380 2000000000)) as Hwf
    by (unfold Time_wf, ticks_per_second; simpl; lia).
  assert (- 2 ^ 31 <= floor_seconds (mkTime 1300819380 2000000000) < 2 ^ 31)
    as Hrange by (vm_compute; split; [discriminate | reflexivity]).
  split; [exact Hwf|]. split; [exact Hrange|].
  exact (proj1 (time_setters_round_trip (mkTime 1300819380 2000000000)
                  RawJwtBuilder_new Hwf Hrange)).
Defined.

(** X3 on the audiences [a], [b], [a] added to a new builder. *)
Lemma AddAudience_sequence_a_b_a :
  builder_json_proto_ RawJwtBuilder_new !! kJwtClaimAudience = None /\
  GetAudiences
    (built (foldl (fun b a => AddAudience a b) RawJwtBuilder_new
              ["a"; "b"; "a"]))
    = Ok ["a"; "b"; "a"].
Proof.
  assert (builder_json_proto_ RawJwtBuilder_new !! kJwtClaimAudience = None)
    as Hnew by reflexivity.
  split; [exact Hnew|].
  apply (AddAudience_sequence ["a"; "b"; "a"] RawJwtBuilder_new Hnew).
  discriminate.
Defined.

(** X4 on the custom name [scope]. *)
Lemma custom_claims_round_trip_scope :
  ("scope" ∉ registered_claim_names) /\
  GetStringClaim (built (snd (AddStringClaim "scope" "read" RawJwtBuilder_new)))
    "scope" = Ok "read" /\
  GetBooleanClaim
    (built (snd (AddBooleanClaim "scope" true RawJwtBuilder_new))) "scope"
    = Ok true.
Proof.
  assert ("scope" ∉ registered_claim_names) as Hname
    by (apply IsRegisteredClaimName_false; reflexivity).
  split; [exact Hname|].
  destruct (custom_claims_round_trip "scope" RawJwtBuilder_new Hname)
    as (Hstring & Hbool & _).
  split; [apply Hstring | apply Hbool].
Defined.

(** X5 on the name [iss] and the claim set of the issuer [joe]: the issuer
    is there and is a string, and [GetStringClaim] does not return it. *)
Lemma registered_names_shielded_iss :
  ("iss" ∈ registered_claim_names) /\
  GetIssuer joe = Ok "joe" /\
  HasStringClaim joe "iss" = false /\
  GetStringClaim joe "iss" = Err (ValidatePayloadName "iss").
Proof.
  assert ("iss" ∈ registered_claim_names) as Hname
    by (apply IsRegisteredClaimName_spec; reflexivity).
  split; [exact Hname|]. split; [reflexivity|].
  destruct (@registered_names_shielded flat_json joe "iss" Hname)
    as ((_ & _ & Hhas & _) & _ & _ & Hget & _).
  split; [exact Hhas | exact Hget].
Defined.

(** X10 on [SetIssuer] after the custom claim [scope] was added. *)
Lemma registered_calls_keep_custom_claims_scope :
  is_registered_call (CallSetIssuer "joe") = true /\
  GetStringClaim
    (built (@call flat_json (CallSetIssuer "joe")
              (snd (AddStringClaim "scope" "read" RawJwtBuilder_new))))
    "scope"
  = GetStringClaim
      (built (snd (AddStringClaim "scope" "read" RawJwtBuilder_new))) "scope".
Proof.
  split; [reflexivity|].
  apply (@registered_calls_keep_custom_claims flat_json (CallSetIssuer "joe")
           (snd (AddStringClaim "scope" "read" RawJwtBuilder_new)) "scope"
           eq_refl).
Defined.

(** X11 on [AddStringClaim] with the names [iss] and [scope] after the
    issuer was set. *)
Lemma custom_calls_keep_registered_claims_iss :
  is_registered_call (CallAddStringClaim "iss" "eve") = false /\
  GetIssuer
    (built (@call flat_json (CallAddStringClaim "iss" "eve")
              (SetIssuer "joe" RawJwtBuilder_new)))
  = GetIssuer (built (SetIssuer "joe" RawJwtBuilder_new)) /\
  GetIssuer
    (built (@call flat_json (CallAddStringClaim "scope" "read")
              (SetIssuer "joe" RawJwtBuilder_new)))
  = GetIssuer (built (SetIssuer "joe" RawJwtBuilder_new)).
Proof.
  split; [reflexivity|]. split.
  - apply (@custom_calls_keep_registered_claims flat_json
             (CallAddStringClaim "iss" "eve")
             (SetIssuer "joe" RawJwtBuilder_new) eq_refl).
  - apply (@custom_calls_keep_registered_claims flat_json
             (CallAddStringClaim "scope" "read")
             (SetIssuer "joe" RawJwtBuilder_new) eq_refl).
Defined.

(** X12 on the empty object under the name [scope], and on a text that is
    no array. *)
Lemma json_claims_through_codec_scope :
  ("scope" ∉ registered_claim_names) /\
  @GetJsonObjectClaim flat_json
    (built (snd (@AddJsonObjectClaim flat_json "scope" "{}" RawJwtBuilder_new)))
    "scope" = @ProtoStructToJsonString flat_json ∅ /\
  @AddJsonArrayClaim flat_json "scope" "[" RawJwtBuilder_new
    = (mkStatus INVALID_ARGUMENT "invalid JSON", RawJwtBuilder_new).
Proof.
  assert ("scope" ∉ registered_claim_names) as Hname
    by (apply IsRegisteredClaimName_false; reflexivity).
  split; [exact Hname|].
  destruct (@json_claims_through_codec flat_json "scope" "{}"
              RawJwtBuilder_new Hname) as (Hobject & _).
  destruct (@json_claims_through_codec flat_json "scope" "["
              RawJwtBuilder_new Hname) as (_ & _ & _ & Harray).
  split; [apply Hobject; reflexivity | apply Harray; reflexivity].
Defined.

(** X15 on the token of the issuer [joe] and a validator that expects
    another issuer, as in the test CreateAndValidateToken: the answer is
    the status of the validator. *)
Lemma VerifyMacAndDecode_parser_then_validator_unknown_issuer :
  no_dot "eyJhbGciOiJIUzI1NiJ9" /\ no_dot "eyJpc3MiOiJqb2UifQ" /\
  no_dot "0A" /\
  @DecodeSignature base64url_format "0A"
    = Some (checksum 7 "eyJhbGciOiJIUzI1NiJ9.eyJpc3MiOiJqb2UifQ") /\
  ok (VerifyMac (mac_ checksum_jwt_mac)
        (checksum 7 "eyJhbGciOiJIUzI1NiJ9.eyJpc3MiOiJqb2UifQ")
        ("eyJhbGciOiJIUzI1NiJ9" +:+ "." +:+ "eyJpc3MiOiJqb2UifQ")) = true /\
  ok (@ValidateHeader base64url_format "eyJhbGciOiJIUzI1NiJ9"
        (algorithm_ checksum_jwt_mac)) = true /\
  @DecodePayload base64url_format "eyJpc3MiOiJqb2UifQ"
    = Some (json_member "iss" "joe") /\
  @VerifyMacAndDecode flat_json base64url_format checksum_jwt_mac
    (("eyJhbGciOiJIUzI1NiJ9" +:+ "." +:+ "eyJpc3MiOiJqb2UifQ")
       +:+ "." +:+ "0A")
    unknown_issuer_validator
  = Err (mkStatus INVALID_ARGUMENT "wrong issuer").
Proof.
  assert (@DecodeSignature base64url_format "0A"
          = Some (checksum 7 "eyJhbGciOiJIUzI1NiJ9.eyJpc3MiOiJqb2UifQ"))
    as Hdec by (vm_compute; reflexivity).
  assert (ok (VerifyMac (mac_ checksum_jwt_mac)
                (checksum 7 "eyJhbGciOiJIUzI1NiJ9.eyJpc3MiOiJqb2UifQ")
                ("eyJhbGciOiJIUzI1NiJ9" +:+ "." +:+ "eyJpc3MiOiJqb2UifQ"))
          = true) as Hver by (vm_compute; reflexivity).
  assert (ok (@ValidateHeader base64url_format "eyJhbGciOiJIUzI1NiJ9"
                (algorithm_ checksum_jwt_mac)) = true) as Hhdr
    by (vm_compute; reflexivity).
  assert (@DecodePayload base64url_format "eyJpc3MiOiJqb2UifQ"
          = Some (json_member "iss" "joe")) as Hpay
    by (vm_compute; reflexivity).
  split; [reflexivity|]. split; [reflexivity|]. split; [reflexivity|].
  split; [exact Hdec|]. split; [exact Hver|]. split; [exact Hhdr|].
  split; [exact Hpay|].
  rewrite (@VerifyMacAndDecode_parser_then_validator flat_json
             base64url_format checksum_jwt_mac unknown_issuer_validator
             "eyJhbGciOiJIUzI1NiJ9" "eyJpc3MiOiJqb2UifQ" "0A" _ _
             eq_refl eq_refl eq_refl Hdec Hver Hhdr Hpay).
  vm_compute. reflexivity.
Defined.

(** X16 on the token of the issuer [joe]. *)
Lemma ComputeMacAndEncode_compact_serialization_joe :
  @JwtFormat_laws base64url_format (algorithm_ checksum_jwt_mac) /\
  @ComputeMacAndEncode flat_json base64url_format checksum_jwt_mac joe
    = Ok "eyJhbGciOiJIUzI1NiJ9.eyJpc3MiOiJqb2UifQ.0A" /\
  count_char "eyJhbGciOiJIUzI1NiJ9.eyJpc3MiOiJqb2UifQ.0A" dot = 2%nat.
Proof.
  assert (@ComputeMacAndEncode flat_json base64url_format checksum_jwt_mac joe
          = Ok "eyJhbGciOiJIUzI1NiJ9.eyJpc3MiOiJqb2UifQ.0A") as Hcompute
    by (vm_compute; reflexivity).
  split; [apply base64url_format_laws|]. split; [exact Hcompute|].
  destruct (@ComputeMacAndEncode_compact_serialization flat_json
              base64url_format checksum_jwt_mac joe _
              (base64url_format_laws _) Hcompute)
    as (payload & tag & _ & _ & _ & Hcount).
  exact Hcount.
Defined.

(** X17 on the token of the issuer [joe], made for HS256 and given to the
    handle with the same key and the algorithm HS384, and to the handle
    that made it with a validator that expects another issuer. *)
Lemma VerifyMacAndDecode_produced_joe :
  @JwtFormat_laws base64url_format (algorithm_ checksum_jwt_mac) /\
  @Json_round_trips flat_json joe /\
  @ComputeMacAndEncode flat_json base64url_format checksum_jwt_mac joe
    = Ok "eyJhbGciOiJIUzI1NiJ9.eyJpc3MiOiJqb2UifQ.0A" /\
  @VerifyMacAndDecode flat_json base64url_format checksum_jwt_mac_HS384
    "eyJhbGciOiJIUzI1NiJ9.eyJpc3MiOiJqb2UifQ.0A" any_validator
    = Err (mkStatus INVALID_ARGUMENT "invalid header") /\
  @VerifyMacAndDecode flat_json base64url_format checksum_jwt_mac
    "eyJhbGciOiJIUzI1NiJ9.eyJpc3MiOiJqb2UifQ.0A" unknown_issuer_validator
    = Err (mkStatus INVALID_ARGUMENT "wrong issuer").
Proof.
  assert (@ComputeMacAndEncode flat_json base64url_format checksum_jwt_mac joe
          = Ok "eyJhbGciOiJIUzI1NiJ9.eyJpc3MiOiJqb2UifQ.0A") as Hcompute
    by (vm_compute; reflexivity).
  split; [apply base64url_format_laws|]. split; [apply joe_round_trips|].
  split; [exact Hcompute|]. split.
  - destruct (@VerifyMacAndDecode_produced flat_json base64url_format
                checksum_jwt_mac checksum_jwt_mac_HS384 joe any_validator _
                (base64url_format_laws _) joe_round_trips Hcompute)
      as (payload & tag & Hpayload & Htag & ->).
    vm_compute in Hpayload. injection Hpayload as <-.
    vm_compute in Htag. injection Htag as <-.
    vm_compute. reflexivity.
  - destruct (@VerifyMacAndDecode_produced flat_json base64url_format
                checksum_jwt_mac checksum_jwt_mac joe
                unknown_issuer_validator _
                (base64url_format_laws _) joe_round_trips Hcompute)
      as (payload & tag & Hpayload & Htag & ->).
    vm_compute in Hpayload. injection Hpayload as <-.
    vm_compute in Htag. injection Htag as <-.
    vm_compute. reflexivity.
Defined.

(** X20 on a key for ES256 of the version 0. *)
Lemma PublicKeyVerifyFactory_Create_validated_ES256 :
  ok (ValidateKey version_at_most 0 es256_key) = true /\
  PublicKeyVerifyFactory_Create id id described_verifier_new es256_key
    = Ok (mkEcKey NIST_P256 "x" "y", SHA256, IEEE_P1363).
Proof.
  split; [reflexivity|].
  destruct (PublicKeyVerifyFactory_Create_validated id id
              described_verifier_new version_at_most 0 es256_key eq_refl)
    as (_ & curve_value & hash_value & Hrow & ->).
  apply elem_of_cons in Hrow as [[= <- <-]|Hrow]; [reflexivity|].
  exfalso.
  repeat (apply elem_of_cons in Hrow as [Hrow|Hrow]; [discriminate Hrow|]).
  apply elem_of_nil in Hrow. exact Hrow.
Defined.

(** X21 on a key with an algorithm that is none of the three. *)
Lemma PublicKeyVerifyFactory_Create_unsupported_other :
  ok (ValidateAlgorithm (ecdsa_algorithm unknown_algorithm_key)) = false /\
  PublicKeyVerifyFactory_Create id id described_verifier_new
    unknown_algorithm_key
    = Err (mkStatus INVALID_ARGUMENT "Unsupported Ecdsa Algorithm") /\
  ok (ValidateKey version_at_most 0 unknown_algorithm_key) = false.
Proof.
  split; [reflexivity|].
  apply (PublicKeyVerifyFactory_Create_unsupported id id
           described_verifier_new version_at_most 0 unknown_algorithm_key
           eq_refl).
Defined.

(** X22 on three bytes in the middle of ten. *)
Lemma SafeZeroMemory_block_three_of_ten :
  (4 + 3 <= length ten_bytes)%nat /\
  SafeZeroMemory ten_bytes 4 3 = [7; 1; 2; 3; 0; 0; 0; 7; 8; 9].
Proof.
  assert (4 + 3 <= length ten_bytes)%nat as Hlen by (simpl; lia).
  split; [exact Hlen|].
  exact (SafeZeroMemory_block ten_bytes 4 3 Hlen).
Defined.

(** X23 on two objects of four bytes each. *)
Lemma SanitizingAllocator_deallocate_zeroes_two_of_four :
  (1 + 2 * 4 <= length ten_bytes)%nat /\
  SanitizingAllocator_deallocate 4 ten_bytes 1 2
    = [7; 0; 0; 0; 0; 0; 0; 0; 0; 9] /\
  (forall object byte, (object < 2)%nat -> (byte < 4)%nat ->
     SanitizingAllocator_deallocate 4 ten_bytes 1 2
       !! (1 + object * 4 + byte)%nat = Some 0).
Proof.
  assert (1 + 2 * 4 <= length ten_bytes)%nat as Hlen by (simpl; lia).
  split; [exact Hlen|]. split; [reflexivity|].
  apply (SanitizingAllocator_deallocate_zeroes 4 ten_bytes 1 2 Hlen).
Defined.
